(** * apollo-upload-client: the upload link of [src/lib/index.js]

    A shallow embedding of [createUploadLink]: the multipart encoder, the
    query rewriter that runs on subscription, and the promise chain that
    turns the reply of [fetch] into observer events.

    JavaScript strings are modelled as Rocq strings (sequences of bytes, the
    UTF-8 form of the text).  Every string operation of the source looks for
    ASCII characters only (the braces, the dollar sign, the line feed, the
    letters of a variable name), and an ASCII byte never occurs inside a
    multi-byte UTF-8 sequence, so the byte view and the UTF-16 view agree on
    them.  Numbers are modelled by the integers. *)

From Stdlib Require Import ZArith String Ascii List DecimalString DecimalN.
From stdpp Require Import base option list strings gmap.

Local Open Scope string_scope.
Local Open Scope Z_scope.

(** ** Completions *)

(** The exceptions the code can raise by itself, and [Foreign]: whatever an
    imported function throws. *)
Inductive Exn := SyntaxError | TypeError | Foreign.

(** A completion is a normal return, a thrown exception, or [Unmodelled]:
    the input left the fragment of JavaScript described here (a regular
    expression with metacharacters, a numeral with a fraction, ...).  The
    model says nothing about what the program does there. *)
Inductive Completion (A : Type) :=
| Normal (a : A)
| Throw (e : Exn)
| Unmodelled.
Arguments Normal {A} a.
Arguments Throw {A} e.
Arguments Unmodelled {A}.

Definition bind {A B} (c : Completion A) (k : A -> Completion B) : Completion B :=
  match c with
  | Normal a => k a
  | Throw e => Throw e
  | Unmodelled => Unmodelled
  end.

Notation "'let*' x ':=' c 'in' k" := (bind c (fun x => k))
  (at level 10, x pattern, c at level 100, k at level 200).

(** ** JavaScript values *)

Module JS.

(** The values [JSON.parse] can return, and [undefined].  An object is the
    list of its own properties in enumeration order. *)
#[warnings="-register-all"]
Inductive value :=
| VUndefined
| VNull
| VBool (b : bool)
| VNum (n : Z)
| VStr (s : string)
| VArr (xs : list value)
| VObj (props : list (string * value)).

(** Decimal numerals, as [Number.prototype.toString] prints an integer. *)
Definition decimal (n : Z) : string := NilZero.string_of_int (Z.to_int n).

(** An array index is a canonical numeric string below 2^32 - 1. *)
Definition array_index (k : string) : option N :=
  match NilEmpty.uint_of_string k with
  | Some d =>
      let n := N.of_uint d in
      if String.eqb (NilEmpty.string_of_uint (N.to_uint n)) k && (n <? 2 ^ 32 - 1)%N
      then Some n else None
  | None => None
  end.

Fixpoint assoc (k : string) (props : list (string * value)) : option value :=
  match props with
  | [] => None
  | (k', v) :: rest => if String.eqb k k' then Some v else assoc k rest
  end.

Definition char_string (c : ascii) : string := String c EmptyString.

(** [v[k]] for an own property [k]; a missing property reads [undefined].
    Properties inherited from the built-in prototypes are not modelled: the
    source reads [query], [variables], [operation], [errors], [data] and own
    keys, and no built-in prototype defines one of these names. *)
Definition Get (v : value) (k : string) : Completion value :=
  match v with
  | VUndefined | VNull => Throw TypeError
  | VObj props => Normal (default VUndefined (assoc k props))
  | VArr xs =>
      match array_index k with
      | Some i => Normal (nth (N.to_nat i) xs VUndefined)
      | None => Normal VUndefined
      end
  | VStr s =>
      match array_index k with
      | Some i =>
          match String.get (N.to_nat i) s with
          | Some c => Normal (VStr (char_string c))
          | None => Normal VUndefined
          end
      | None => Normal VUndefined
      end
  | VBool _ | VNum _ => Normal VUndefined
  end.

Definition indices (n : nat) : list string :=
  map (fun i => decimal (Z.of_nat i)) (seq 0 n).

(** [Object.keys(v)] *)
Definition Object_keys (v : value) : Completion (list string) :=
  match v with
  | VUndefined | VNull => Throw TypeError
  | VObj props => Normal (map fst props)
  | VArr xs => Normal (indices (length xs))
  | VStr s => Normal (indices (String.length s))
  | VBool _ | VNum _ => Normal []
  end.

(** [ToBoolean] *)
Definition ToBoolean (v : value) : bool :=
  match v with
  | VUndefined | VNull => false
  | VBool b => b
  | VNum n => negb (n =? 0)
  | VStr s => negb (String.eqb s "")
  | VArr _ | VObj _ => true
  end.

(** [typeof v === 'number'] *)
Definition is_number (v : value) : bool :=
  match v with VNum _ => true | _ => false end.

(** [Array.prototype.join] on an array of strings. *)
Fixpoint join (sep : string) (l : list string) : string :=
  match l with
  | [] => ""
  | [s] => s
  | s :: rest => s +:+ sep +:+ join sep rest
  end.

(** [ToString].  An array prints its elements separated by commas, with
    [null] and [undefined] printed as nothing; a plain object prints as
    [[object Object]], unless an own [toString] property (which, coming from
    JSON, is not callable) hides the inherited method: the conversion then
    throws a TypeError. *)
Fixpoint ToString (v : value) : Completion string :=
  match v with
  | VUndefined => Normal "undefined"
  | VNull => Normal "null"
  | VBool true => Normal "true"
  | VBool false => Normal "false"
  | VNum n => Normal (decimal n)
  | VStr s => Normal s
  | VArr xs =>
      let fix elements (xs : list value) : Completion (list string) :=
        match xs with
        | [] => Normal []
        | x :: rest =>
            let* s := match x with
                      | VUndefined | VNull => Normal ""
                      | _ => ToString x
                      end in
            let* ss := elements rest in
            Normal (s :: ss)
        end in
      let* ss := elements xs in
      Normal (join "," ss)
  | VObj props =>
      match assoc "toString" props with
      | Some _ => Throw TypeError
      | None => Normal "[object Object]"
      end
  end.

(** ** Property definition *)

(** [o[k] = v] on a plain object for a key other than [__proto__], and
    [CreateDataProperty]: on the property list, a key already present keeps
    its place; a new array index goes among the array indices, in ascending
    order, before every other key; any other new key goes last. *)
Fixpoint has_key (k : string) (props : list (string * value)) : bool :=
  match props with
  | [] => false
  | (k', _) :: rest => String.eqb k k' || has_key k rest
  end.

Fixpoint overwrite (k : string) (v : value) (props : list (string * value))
  : list (string * value) :=
  match props with
  | [] => []
  | (k', v') :: rest =>
      if String.eqb k k' then (k', v) :: rest else (k', v') :: overwrite k v rest
  end.

Fixpoint insert_index (n : N) (k : string) (v : value) (props : list (string * value))
  : list (string * value) :=
  match props with
  | [] => [(k, v)]
  | (k', v') :: rest =>
      match array_index k' with
      | Some m =>
          if (m <? n)%N then (k', v') :: insert_index n k v rest
          else (k, v) :: props
      | None => (k, v) :: props
      end
  end.

Definition define (k : string) (v : value) (props : list (string * value))
  : list (string * value) :=
  if has_key k props then overwrite k v props
  else match array_index k with
       | Some n => insert_index n k v props
       | None => props ++ [(k, v)]
       end.

(** ** Strings *)

(** [s.split(sep)] for a separator of one character. *)
Fixpoint split (sep : ascii) (s : string) : list string :=
  match s with
  | EmptyString => [EmptyString]
  | String c s' =>
      if Ascii.eqb c sep then EmptyString :: split sep s'
      else match split sep s' with
           | [] => [char_string c]
           | h :: t => String c h :: t
           end
  end.

(** [a.splice(start)] returns the elements removed: all from [start] on. *)
Definition splice {A} (start : nat) (a : list A) : list A := drop start a.

(** [a.slice(start, end)], with negative positions counted from the end. *)
Definition slice {A} (first last : Z) (a : list A) : list A :=
  let len := Z.of_nat (length a) in
  let rel p := if p <? 0 then Z.max (len + p) 0 else Z.min p len in
  let k := rel first in
  let final := rel last in
  take (Z.to_nat (final - k)) (drop (Z.to_nat k) a).

Definition upper (c : ascii) : ascii :=
  let n := nat_of_ascii c in
  if ((97 <=? n) && (n <=? 122))%nat then ascii_of_nat (n - 32) else c.

Definition lower (c : ascii) : ascii :=
  let n := nat_of_ascii c in
  if ((65 <=? n) && (n <=? 90))%nat then ascii_of_nat (n + 32) else c.

Fixpoint string_map (f : ascii -> ascii) (s : string) : string :=
  match s with
  | EmptyString => EmptyString
  | String c s' => String (f c) (string_map f s')
  end.

(** [s.toLowerCase()], on the ASCII letters.  The source compares the result
    with ['id'], and no character outside ASCII has [i] or [d] as its lower
    case. *)
Definition toLowerCase (s : string) : string := string_map lower s.


(** ** Regular expressions and [String.prototype.replace] *)

Definition word_char (c : ascii) : bool :=
  let n := nat_of_ascii c in
  ((48 <=? n) && (n <=? 57) || (65 <=? n) && (n <=? 90)
   || (97 <=? n) && (n <=? 122) || (n =? 95))%nat.

Definition word (s : string) : bool := forallb word_char (list_ascii_of_string s).

(** The regular expressions the source builds: a literal text matched with
    the [i] flag. *)
Inductive RegExp := IgnoreCase (text : string).

(** [RegExp('\\$' + key, 'i')].  When [key] is made of letters, digits and
    underscores (a GraphQL name is), the pattern is an escaped dollar sign
    followed by literal characters.  Any other key may hold pattern syntax
    and is left out of the model. *)
Definition RegExp_dollar (key : string) : Completion RegExp :=
  if word key then Normal (IgnoreCase ("$" +:+ key)) else Unmodelled.

(** Does the text occur at the start of [s]?  Characters are compared after
    [Canonicalize], which for a pattern without the [u] flag is the upper
    case and never maps a character outside ASCII into ASCII. *)
Fixpoint match_here (text s : string) : bool :=
  match text, s with
  | EmptyString, _ => true
  | String a text', String b s' => Ascii.eqb (upper a) (upper b) && match_here text' s'
  | String _ _, EmptyString => false
  end.

(** [r.exec(s)]: the leftmost match, as the text before it, the text matched
    and the text after it. *)
Fixpoint exec (r : RegExp) (s : string) : option (string * string * string) :=
  let 'IgnoreCase text := r in
  if match_here text s
  then Some ("", substring 0 (String.length text) s,
             substring (String.length text) (String.length s - String.length text) s)
  else match s with
       | EmptyString => None
       | String c s' =>
           match exec r s' with
           | Some (before, matched, after) => Some (String c before, matched, after)
           | None => None
           end
       end.

(** [GetSubstitution] for a pattern without capture groups: [$$], [$&],
    [$`] and [$'] are expanded, any other text stands for itself. *)
Fixpoint GetSubstitution (matched before after replacement : string) : string :=
  match replacement with
  | EmptyString => EmptyString
  | String c rest =>
      if Ascii.eqb c "$" then
        match rest with
        | EmptyString => char_string c
        | String d rest' =>
            if Ascii.eqb d "$" then
              String "$" (GetSubstitution matched before after rest')
            else if Ascii.eqb d "&" then
              matched +:+ GetSubstitution matched before after rest'
            else if Ascii.eqb d "`" then
              before +:+ GetSubstitution matched before after rest'
            else if Ascii.eqb d "'" then
              after +:+ GetSubstitution matched before after rest'
            else String c (GetSubstitution matched before after rest)
        end
      else String c (GetSubstitution matched before after rest)
  end.

(** [s.replace(r, replacement)] for [r] without the [g] flag and a
    replacement that is already a string. *)
Definition replace (r : RegExp) (replacement : string) (s : string) : string :=
  match exec r s with
  | Some (before, matched, after) =>
      before +:+ GetSubstitution matched before after replacement +:+ after
  | None => s
  end.

Definition LF : ascii := ascii_of_nat 10.

(** [s.replace(/\n/g, '')] *)
Fixpoint remove_newlines (s : string) : string :=
  match s with
  | EmptyString => EmptyString
  | String c s' =>
      if Ascii.eqb c LF then remove_newlines s' else String c (remove_newlines s')
  end.

End JS.

(** ** The query rewriter (index.js, lines 156 to 178) *)

Module Rewriter.
Import JS.

(** One turn of the loop over [keys].  [val] is computed as the source
    computes it, and, as in the source, [replace] is given
    [body.variables[keys[i]]]. *)
Definition substitute_key (variables : value) (rawQuery key : string)
  : Completion string :=
  let* v := Get variables key in
  let* val :=
    if String.eqb (toLowerCase key) "id" || is_number v
    then Normal v
    else let* s := ToString v in Normal (VStr ("'" +:+ s +:+ "'")) in
  let* r := RegExp_dollar key in
  let* replacement := ToString v in
  Normal (replace r replacement rawQuery).

(** [for (const i in keys) ...] *)
Fixpoint substitute (variables : value) (keys : list string) (rawQuery : string)
  : Completion string :=
  match keys with
  | [] => Normal rawQuery
  | key :: rest =>
      let* rawQuery := substitute_key variables rawQuery key in
      substitute variables rest rawQuery
  end.

(** The selection set: what follows the first opening brace and precedes the
    last closing one. *)
Definition selection_set (query : string) : string :=
  join "}" (slice 0 (-1) (split "}" (join "{" (splice 1 (split "{" query))))).

(** The body of [if (body.query) { ... }], up to the new value of [body].
    A truthy [query] that is not a string has no [split] method. *)
Definition rewriteQuery (body : value) : Completion value :=
  let* query := Get body "query" in
  match query with
  | VStr query =>
      let rawQuery := selection_set query in
      let* variables := Get body "variables" in
      let* keys := Object_keys variables in
      let* rawQuery := substitute variables keys rawQuery in
      let rawQuery := remove_newlines rawQuery in
      let rawQuery := " query { " +:+ rawQuery +:+ " } " in
      let* operation := Get body "operation" in
      Normal (VObj [("operationName", operation);
                    ("query", VStr rawQuery);
                    ("variables", VNull)])
  | _ => Throw TypeError
  end.

End Rewriter.

(** ** [JSON.stringify] and [JSON.parse] *)

Module JSON.
Import JS.

Definition DQUOTE : ascii := ascii_of_nat 34.

Definition hex_digit (n : nat) : ascii :=
  ascii_of_nat (if (n <? 10)%nat then 48 + n else 87 + n).

(** [QuoteJSONString], one character at a time. *)
Definition quote_char (c : ascii) : string :=
  let n := nat_of_ascii c in
  if (n =? 34)%nat then String "\" (char_string DQUOTE)
  else if (n =? 92)%nat then "\\"
  else if (n =? 8)%nat then "\b"
  else if (n =? 12)%nat then "\f"
  else if (n =? 10)%nat then "\n"
  else if (n =? 13)%nat then "\r"
  else if (n =? 9)%nat then "\t"
  else if (n <? 32)%nat then
    "\u00" +:+ String (hex_digit (n / 16)) (char_string (hex_digit (n mod 16)))
  else char_string c.

Fixpoint quote_chars (s : string) : string :=
  match s with
  | EmptyString => EmptyString
  | String c s' => quote_char c +:+ quote_chars s'
  end.

Definition quote (s : string) : string :=
  String DQUOTE (quote_chars s) +:+ char_string DQUOTE.

(** [SerializeJSONProperty] without indentation: [None] is [undefined].  A
    property whose value is [undefined] is left out of an object and printed
    as [null] in an array. *)
Fixpoint serialize (v : value) : option string :=
  match v with
  | VUndefined => None
  | VNull => Some "null"
  | VBool true => Some "true"
  | VBool false => Some "false"
  | VNum n => Some (decimal n)
  | VStr s => Some (quote s)
  | VArr xs =>
      Some ("[" +:+ join "," (map (fun x => default "null" (serialize x)) xs) +:+ "]")
  | VObj props =>
      let fix members (props : list (string * value)) : list string :=
        match props with
        | [] => []
        | (k, v) :: rest =>
            match serialize v with
            | Some s => (quote k +:+ ":" +:+ s) :: members rest
            | None => members rest
            end
        end in
      Some ("{" +:+ join "," (members props) +:+ "}")
  end.

(** [JSON.stringify(v)] *)
Definition stringify (v : value) : option string := serialize v.

(** [JSON.parse]: a recursive-descent reader of the JSON grammar.  Left out
    of the model ([Unmodelled]): numerals with a fraction or an exponent or
    beyond 2^53, and [\u] escapes of characters outside ASCII. *)

Definition is_ws (c : ascii) : bool :=
  let n := nat_of_ascii c in
  ((n =? 9) || (n =? 10) || (n =? 13) || (n =? 32))%nat.

Fixpoint skip_ws (s : string) : string :=
  match s with
  | String c s' => if is_ws c then skip_ws s' else s
  | EmptyString => s
  end.

(** [expect lit s] reads the literal [lit] at the start of [s]. *)
Fixpoint expect (lit s : string) : option string :=
  match lit, s with
  | EmptyString, _ => Some s
  | String a lit', String b s' => if Ascii.eqb a b then expect lit' s' else None
  | String _ _, EmptyString => None
  end.

Definition digit_value (c : ascii) : option Z :=
  let n := nat_of_ascii c in
  if ((48 <=? n) && (n <=? 57))%nat then Some (Z.of_nat (n - 48)) else None.

Definition hex_value (c : ascii) : option nat :=
  let n := nat_of_ascii c in
  if ((48 <=? n) && (n <=? 57))%nat then Some (n - 48)%nat
  else if ((65 <=? n) && (n <=? 70))%nat then Some (n - 55)%nat
  else if ((97 <=? n) && (n <=? 102))%nat then Some (n - 87)%nat
  else None.

Fixpoint parse_digits (acc : Z) (s : string) : Z * string :=
  match s with
  | String c s' =>
      match digit_value c with
      | Some d => parse_digits (10 * acc + d) s'
      | None => (acc, s)
      end
  | EmptyString => (acc, s)
  end.

Definition parse_number (s : string) : Completion (value * string) :=
  let '(negative, s) :=
    match s with
    | String c s' => if Ascii.eqb c "-" then (true, s') else (false, s)
    | EmptyString => (false, s)
    end in
  match s with
  | EmptyString => Throw SyntaxError
  | String c s' =>
      match digit_value c with
      | None => Throw SyntaxError
      | Some d =>
          let '(n, rest) := if d =? 0 then (0, s') else parse_digits d s' in
          let fractional :=
            match rest with
            | String c' _ => Ascii.eqb c' "." || Ascii.eqb c' "e" || Ascii.eqb c' "E"
            | EmptyString => false
            end in
          if fractional || (2 ^ 53 <? n) then Unmodelled
          else Normal (VNum (if negative then - n else n), rest)
      end
  end.

(** The characters of a string literal, after its opening quote. *)
Fixpoint parse_chars (s : string) : Completion (string * string) :=
  match s with
  | EmptyString => Throw SyntaxError
  | String c s' =>
      let n := nat_of_ascii c in
      if (n =? 34)%nat then Normal (EmptyString, s')
      else if (n <? 32)%nat then Throw SyntaxError
      else if (n =? 92)%nat then
        match s' with
        | EmptyString => Throw SyntaxError
        | String e s'' =>
            let escaped (c : ascii) :=
              let* (str, rest) := parse_chars s'' in Normal (String c str, rest) in
            if Ascii.eqb e DQUOTE then escaped DQUOTE
            else if Ascii.eqb e "\" then escaped "\"%char
            else if Ascii.eqb e "/" then escaped "/"%char
            else if Ascii.eqb e "b" then escaped (ascii_of_nat 8)
            else if Ascii.eqb e "f" then escaped (ascii_of_nat 12)
            else if Ascii.eqb e "n" then escaped (ascii_of_nat 10)
            else if Ascii.eqb e "r" then escaped (ascii_of_nat 13)
            else if Ascii.eqb e "t" then escaped (ascii_of_nat 9)
            else if Ascii.eqb e "u" then
              match s'' with
              | String h1 (String h2 (String h3 (String h4 s3))) =>
                  match hex_value h1, hex_value h2, hex_value h3, hex_value h4 with
                  | Some a, Some b, Some c, Some d =>
                      let code := (((a * 16 + b) * 16 + c) * 16 + d)%nat in
                      if (code <? 128)%nat then
                        let* (str, rest) := parse_chars s3 in
                        Normal (String (ascii_of_nat code) str, rest)
                      else Unmodelled
                  | _, _, _, _ => Throw SyntaxError
                  end
              | _ => Throw SyntaxError
              end
            else Throw SyntaxError
        end
      else let* (str, rest) := parse_chars s' in Normal (String c str, rest)
  end.

Definition parse_literal (lit : string) (v : value) (s : string)
  : Completion (value * string) :=
  match expect lit s with
  | Some rest => Normal (v, rest)
  | None => Throw SyntaxError
  end.

(** Values, the elements of an array after its bracket, and the members of
    an object after its brace.  Every call reads at least one character
    before the next one, so the fuel given by [parse] is never used up. *)
Fixpoint parse_value (fuel : nat) (s : string) : Completion (value * string) :=
  match fuel with
  | O => Unmodelled
  | S fuel =>
      match skip_ws s with
      | EmptyString => Throw SyntaxError
      | String c rest as s0 =>
          if Ascii.eqb c "{" then
            match skip_ws rest with
            | String c' rest' =>
                if Ascii.eqb c' "}" then Normal (VObj [], rest')
                else parse_members fuel [] rest
            | EmptyString => Throw SyntaxError
            end
          else if Ascii.eqb c "[" then
            match skip_ws rest with
            | String c' rest' =>
                if Ascii.eqb c' "]" then Normal (VArr [], rest')
                else parse_elements fuel [] rest
            | EmptyString => Throw SyntaxError
            end
          else if Ascii.eqb c DQUOTE then
            let* (str, rest') := parse_chars rest in Normal (VStr str, rest')
          else if Ascii.eqb c "n" then parse_literal "null" VNull s0
          else if Ascii.eqb c "t" then parse_literal "true" (VBool true) s0
          else if Ascii.eqb c "f" then parse_literal "false" (VBool false) s0
          else if Ascii.eqb c "-" || bool_decide (is_Some (digit_value c))
          then parse_number s0
          else Throw SyntaxError
      end
  end
with parse_elements (fuel : nat) (acc : list value) (s : string)
  : Completion (value * string) :=
  match fuel with
  | O => Unmodelled
  | S fuel =>
      let* (v, rest) := parse_value fuel s in
      match skip_ws rest with
      | String c rest' =>
          if Ascii.eqb c "," then parse_elements fuel (acc ++ [v]) rest'
          else if Ascii.eqb c "]" then Normal (VArr (acc ++ [v]), rest')
          else Throw SyntaxError
      | EmptyString => Throw SyntaxError
      end
  end
with parse_members (fuel : nat) (acc : list (string * value)) (s : string)
  : Completion (value * string) :=
  match fuel with
  | O => Unmodelled
  | S fuel =>
      match skip_ws s with
      | String c rest =>
          if Ascii.eqb c DQUOTE then
            let* (k, rest) := parse_chars rest in
            match skip_ws rest with
            | String c rest =>
                if Ascii.eqb c ":" then
                  let* (v, rest) := parse_value fuel rest in
                  match skip_ws rest with
                  | String c rest =>
                      if Ascii.eqb c "," then parse_members fuel (define k v acc) rest
                      else if Ascii.eqb c "}" then Normal (VObj (define k v acc), rest)
                      else Throw SyntaxError
                  | EmptyString => Throw SyntaxError
                  end
                else Throw SyntaxError
            | EmptyString => Throw SyntaxError
            end
          else Throw SyntaxError
      | EmptyString => Throw SyntaxError
      end
  end.

(** [JSON.parse(text)] *)
Definition parse (text : string) : Completion value :=
  let* (v, rest) := parse_value (2 * String.length text + 2) text in
  match skip_ws rest with
  | EmptyString => Normal v
  | String _ _ => Throw SyntaxError
  end.

End JSON.

(** ** The link (index.js, lines 92 to 210) *)

Module Link.
Import JS Rewriter.

(** A file-like value: [name] may be missing; the content is opaque. *)
Record File := { name : option string; content : string }.

(** What [extractFiles] returns for each file found in the body. *)
Record ExtractedFile := { path : string; file : File }.

(** A [FormData]: the fields appended so far, in order.  A binary part
    carries the file and the file name given as third argument. *)
Inductive Part :=
| Text (text : string)
| Binary (f : File) (filename : option string).

Definition FormData := list (string * Part).

(** [formData.append(name, value, filename)] *)
Definition append (field : string) (p : Part) (formData : FormData) : FormData :=
  (formData ++ [(field, p)])%list.

Inductive RequestBody :=
| TextBody (text : string)
| FormBody (formData : FormData).

(** The [fetch] options the link touches; [others] holds the rest. *)
Record Options := {
  headers : gmap string string;
  body : option RequestBody;
  signal : option nat;
  others : list (string * value)
}.

Definition set_headers (h : gmap string string) (o : Options) : Options :=
  {| headers := h; body := body o; signal := signal o; others := others o |}.
Definition set_body (b : option RequestBody) (o : Options) : Options :=
  {| headers := headers o; body := b; signal := signal o; others := others o |}.
Definition set_signal (s : option nat) (o : Options) : Options :=
  {| headers := headers o; body := body o; signal := s; others := others o |}.

(** A value caught by the promise chain, seen through the two properties
    the handler reads. *)
Record Error := { error_name : value; result : value }.

Inductive Settled (A : Type) :=
| Fulfilled (a : A)
| Rejected (error : Error).
Arguments Fulfilled {A} a.
Arguments Rejected {A} error.

(** The operation context is a key/value store; the raw response is one of
    the things kept there. *)
Inductive ContextValue (Response : Type) :=
| Plain (v : value)
| Raw (response : Response).
Arguments Plain {Response} v.
Arguments Raw {Response} response.

Record Config (Response : Type) := {
  http : ContextValue Response;
  options : ContextValue Response;
  credentials : ContextValue Response;
  config_headers : ContextValue Response
}.
Arguments http {Response} c.
Arguments options {Response} c.
Arguments credentials {Response} c.
Arguments config_headers {Response} c.

(** The functions imported from [apollo-link-http-common] and
    [extract-files], and the global [fetch].  [extractFiles] takes the files
    out of the body it is given, so it returns the body as it leaves it.
    [serializeFetchParameter] returns [None] when it throws.
    [createSignalIfSupported] returns the identity of the controller and its
    signal, when there is one. *)
Class Collaborators (Operation Body Response : Type) := {
  selectURI : Operation -> gmap string (ContextValue Response) -> string -> string;
  selectHttpOptionsAndBody :
    Operation -> Config Response -> Config Response -> Config Response -> Options * Body;
  fallbackHttpConfig : Config Response;
  serializeFetchParameter : Body -> string -> option string;
  createSignalIfSupported : option nat;
  parseAndCheckHttpResponse : Operation -> Response -> Settled value;
  extractFiles : Body -> list ExtractedFile * Body;
  fetch : string -> Options -> Settled Response
}.

(** The argument of [createUploadLink]; [None] is a missing property. *)
Record LinkOptions (Response : Type) := {
  opt_uri : option string;
  opt_fetch : option (string -> Options -> Settled Response);
  opt_fetchOptions : value;
  opt_credentials : value;
  opt_headers : value;
  opt_includeExtensions : value
}.
Arguments opt_uri {Response} l.
Arguments opt_fetch {Response} l.
Arguments opt_fetchOptions {Response} l.
Arguments opt_credentials {Response} l.
Arguments opt_headers {Response} l.
Arguments opt_includeExtensions {Response} l.

(** The multipart encoder (lines 127 to 146), as a function of the payload
    and the files. *)

(** [a.reduce(f, init)], [f] receiving the accumulator, the element and its
    index. *)
Fixpoint reduce_from {A B} (f : B -> A -> nat -> B) (index : nat) (a : list A) (acc : B) : B :=
  match a with
  | [] => acc
  | x :: rest => reduce_from f (S index) rest (f acc x index)
  end.

Definition reduce {A B} (f : B -> A -> nat -> B) (init : B) (a : list A) : B :=
  reduce_from f 0 a init.

(** The object passed to [JSON.stringify] for the [map] field. *)
Definition file_map (files : list ExtractedFile) : value :=
  VObj (reduce (fun map f index =>
                  define (decimal (Z.of_nat index)) (VArr [VStr (path f)]) map)
               [] files).

(** [files.forEach(({ file }, index) => options.body.append(index, file, file.name))] *)
Definition append_files (files : list ExtractedFile) (formData : FormData) : FormData :=
  reduce (fun formData f index =>
            append (decimal (Z.of_nat index)) (Binary (file f) (name (file f))) formData)
         formData files.

Definition multipart (payload : string) (files : list ExtractedFile) : FormData :=
  let formData := [] in
  let formData := append "operations" (Text payload) formData in
  let formData :=
    append "map" (Text (default "undefined" (JSON.stringify (file_map files)))) formData in
  append_files files formData.

(** Lines 127 to 147. *)
Definition encode (payload : string) (files : list ExtractedFile) (o : Options) : Options :=
  if (length files =? 0)%nat then set_body (Some (TextBody payload)) o
  else
    let o := set_headers (delete "content-type" (headers o)) o in
    set_body (Some (FormBody (multipart payload files))) o.

(** *** The state and the trace *)

Section UploadLink.
Context {Operation Body Response : Type}.
Context `{Collaborators Operation Body Response}.

(** What the link does that others can see, in the order it does it. *)
Inductive Event :=
| ExtractFiles
| SerializePayload
| EncodeMultipart
| RewriteQuery
| Fetch (uri : string) (o : Options)
| SetContext (response : Response)
| ParseResponse (response : Response)
| Next (v : value)
| Complete
| Failed (error : Error)
| Abort.

(** The mutable state: the context of the operation, the [options] object
    the request builds and every subscription updates, and the trace. *)
Record World := {
  context : gmap string (ContextValue Response);
  request_options : Options;
  trace : list Event
}.

Definition set_context (c : gmap string (ContextValue Response)) (w : World) : World :=
  {| context := c; request_options := request_options w; trace := trace w |}.
Definition set_options (o : Options) (w : World) : World :=
  {| context := context w; request_options := o; trace := trace w |}.
Definition set_trace (t : list Event) (w : World) : World :=
  {| context := context w; request_options := request_options w; trace := t |}.

(** Computations that change the world and may throw. *)
Definition M (A : Type) : Type := World -> Completion A * World.

Definition ret {A} (a : A) : M A := fun w => (Normal a, w).

Definition seq {A B} (m : M A) (k : A -> M B) : M B :=
  fun w =>
    match m w with
    | (Normal a, w') => k a w'
    | (Throw e, w') => (Throw e, w')
    | (Unmodelled, w') => (Unmodelled, w')
    end.

#[local] Notation "'do' x '<-' m ';' k" := (seq m (fun x => k))
  (at level 10, x pattern, m at level 100, k at level 200).
#[local] Notation "m ';;' k" := (seq m (fun _ => k))
  (at level 100, k at level 200, right associativity).

Definition lift {A} (c : Completion A) : M A := fun w => (c, w).
Definition get : M World := fun w => (Normal w, w).
Definition modify (f : World -> World) : M unit := fun w => (Normal tt, f w).
Definition log (e : Event) : M unit :=
  modify (fun w => set_trace (trace w ++ [e]) w).
Definition when (b : bool) (m : M unit) : M unit := if b then m else ret tt.

(** The observer: each callback may change the world. *)
Record Observer := {
  next : value -> World -> World;
  error : Error -> World -> World;
  complete : World -> World
}.

Definition observer_next (observer : Observer) (v : value) : M unit :=
  log (Next v) ;; modify (next observer v).
Definition observer_error (observer : Observer) (e : Error) : M unit :=
  log (Failed e) ;; modify (error observer e).
Definition observer_complete (observer : Observer) : M unit :=
  log Complete ;; modify (complete observer).

(** *** The request handler (lines 107 to 148) *)

(** What the [Observable] closes over, besides [options]. *)
Record Observable := { uri : string; operation : Operation }.

Definition lookup_context (c : gmap string (ContextValue Response)) (k : string)
  : ContextValue Response :=
  default (Plain VUndefined) (c !! k).

(** [linkConfig] (lines 100 to 105) and [contextConfig] (lines 110 to 115). *)
Definition linkConfig (link : LinkOptions Response) : Config Response :=
  {| http := Plain (VObj [("includeExtensions", opt_includeExtensions link)]);
     options := Plain (opt_fetchOptions link);
     credentials := Plain (opt_credentials link);
     config_headers := Plain (opt_headers link) |}.

Definition contextConfig (context : gmap string (ContextValue Response)) : Config Response :=
  {| http := lookup_context context "http";
     options := lookup_context context "fetchOptions";
     credentials := lookup_context context "credentials";
     config_headers := lookup_context context "headers" |}.

Definition request (link : LinkOptions Response) (operation : Operation) : M Observable :=
  let fetchUri := default "/graphql" (opt_uri link) in
  do w <- get;
  let uri := selectURI operation (context w) fetchUri in
  let context := context w in
  let '(options, body) :=
    selectHttpOptionsAndBody operation fallbackHttpConfig
      (linkConfig link) (contextConfig context) in
  log ExtractFiles ;;
  let '(files, body) := extractFiles body in
  log SerializePayload ;;
  do payload <- lift (match serializeFetchParameter body "Payload" with
                      | Some payload => Normal payload
                      | None => Throw Foreign
                      end);
  when (negb (length files =? 0)%nat) (log EncodeMultipart) ;;
  modify (set_options (encode payload files options)) ;;
  ret {| uri := uri; operation := operation |}.

(** *** The subscriber (lines 149 to 208) *)

(** [ToString] of what [options.body] holds. *)
Definition body_text (b : option RequestBody) : string :=
  match b with
  | None => "undefined"
  | Some (TextBody text) => text
  | Some (FormBody _) => "[object FormData]"
  end.

(** Lines 150 to 180: up to the call of [linkFetch], whose promise is
    returned as the reply it settles with. *)
Definition subscriber (link : LinkOptions Response) (o : Observable)
  : M (Settled Response) :=
  let linkFetch := default fetch (opt_fetch link) in
  let controller := createSignalIfSupported in
  when (bool_decide (is_Some controller))
       (modify (fun w => set_options (set_signal controller (request_options w)) w)) ;;
  do w <- get;
  do body <- lift (JSON.parse (body_text (body (request_options w))));
  do query <- lift (Get body "query");
  when (ToBoolean query)
       (log RewriteQuery ;;
        do body <- lift (rewriteQuery body);
        modify (fun w =>
          set_options (set_body (TextBody <$> JSON.stringify body) (request_options w)) w)) ;;
  do w <- get;
  log (Fetch (uri o) (request_options w)) ;;
  ret (linkFetch (uri o) (request_options w)).

(** [error.result && error.result.errors && error.result.data], as a
    condition. *)
Definition has_result (e : Error) : Completion bool :=
  if ToBoolean (result e) then
    let* errors := Get (result e) "errors" in
    if ToBoolean errors then
      let* data := Get (result e) "data" in
      Normal (ToBoolean data)
    else Normal false
  else Normal false.

Definition is_abort (e : Error) : bool :=
  match error_name e with
  | VStr s => String.eqb s "AbortError"
  | _ => false
  end.

(** The [catch] callback (lines 191 to 201). *)
Definition on_rejected (observer : Observer) (e : Error) : M unit :=
  if is_abort e then ret tt
  else
    do forward <- lift (has_result e);
    when forward (observer_next observer (result e)) ;;
    observer_error observer e.

(** [operation.setContext({ response })] *)
Definition setContext (response : Response) : M unit :=
  log (SetContext response) ;;
  modify (fun w => set_context (<["response" := Raw response]> (context w)) w).

(** The promise chain (lines 180 to 201), run on the reply of [linkFetch]. *)
Definition settle (o : Observable) (observer : Observer) (reply : Settled Response)
  : M unit :=
  match reply with
  | Fulfilled response =>
      setContext response ;;
      log (ParseResponse response) ;;
      match parseAndCheckHttpResponse (operation o) response with
      | Fulfilled result =>
          observer_next observer result ;;
          observer_complete observer
      | Rejected e => on_rejected observer e
      end
  | Rejected e => on_rejected observer e
  end.

(** The cleanup function (lines 204 to 207). *)
Definition cleanup : M unit :=
  when (bool_decide (is_Some createSignalIfSupported)) (log Abort).

(** A subscription followed to the end of its promise chain. *)
Definition subscribe (link : LinkOptions Response) (o : Observable) (observer : Observer)
  : M unit :=
  do reply <- subscriber link o;
  settle o observer reply.

(** The link applied to an operation, and the Observable subscribed to once:
    [send] stops when [linkFetch] has been called, [execute] goes on to the
    end of the promise chain. *)
Definition send (link : LinkOptions Response) (operation : Operation)
  : M (Settled Response) :=
  do o <- request link operation;
  subscriber link o.

Definition execute (link : LinkOptions Response) (operation : Operation)
  (observer : Observer) : M unit :=
  do o <- request link operation;
  subscribe link o observer.

(** The failure the promise chain ends with, if it does: the rejection of
    [linkFetch], or that of the response parser. *)
Definition failure (o : Observable) (reply : Settled Response) : option Error :=
  match reply with
  | Rejected e => Some e
  | Fulfilled response =>
      match parseAndCheckHttpResponse (operation o) response with
      | Rejected e => Some e
      | Fulfilled _ => None
      end
  end.

(** The files the request handler gets from [extractFiles]. *)
Definition extracted (link : LinkOptions Response) (operation : Operation) (w : World)
  : list ExtractedFile :=
  fst (extractFiles
         (snd (selectHttpOptionsAndBody operation fallbackHttpConfig
                 (linkConfig link) (contextConfig (context w))))).

(** *** Reading a trace *)

(** The four components of the pipeline, and the event that marks each. *)
Inductive Stage := QueryRewriter | PayloadSerializer | MultipartEncoder | Transport.

Definition stage (e : Event) : option Stage :=
  match e with
  | SerializePayload => Some PayloadSerializer
  | EncodeMultipart => Some MultipartEncoder
  | RewriteQuery => Some QueryRewriter
  | Fetch _ _ => Some Transport
  | _ => None
  end.

Definition stages (tr : list Event) : list Stage := omap stage tr.

(** The events an observer receives. *)
Definition emission (e : Event) : option Event :=
  match e with
  | Next _ | Complete | Failed _ => Some e
  | _ => None
  end.

Definition emitted (tr : list Event) : list Event := omap emission tr.

(** An observer that does nothing with what it receives. *)
Definition silent : Observer :=
  {| next := fun _ w => w; error := fun _ w => w; complete := fun w => w |}.

End UploadLink.

Notation "'do' x '<-' m ';' k" := (seq m (fun x => k))
  (at level 10, x pattern, m at level 100, k at level 200).
Notation "m ';;' k" := (seq m (fun _ => k))
  (at level 100, k at level 200, right associativity).

(** Does the result of the error hold both a [data] and an [errors]
    property? *)
Definition holds_data_and_errors (e : Error) : bool :=
  match result e with
  | VObj props => has_key "data" props && has_key "errors" props
  | _ => false
  end.

End Link.

(** ** Concrete collaborators and operations *)

Module Scenario.
Import JS Link.

(** A response that knows what the response parser will make of it. *)
Record Response := { status : Z; parsed : Settled value }.

(** The body [selectHttpOptionsAndBody] builds, with the files put aside:
    [json] holds [null] where a file sat. *)
Record Body := { json : value; attachments : list ExtractedFile }.

Definition defaults : Options :=
  {| headers := {[ "accept" := "*/*"; "content-type" := "application/json" ]};
     body := None;
     signal := None;
     others := [("method", VStr "POST")] |}.

(** Collaborators that answer every request with [reply].  The serializer
    is [JSON.stringify], as in [apollo-link-http-common]. *)
Definition collaborators (reply : Settled Response) : Collaborators Body Body Response :=
  {| selectURI := fun _ _ fallback => fallback;
     selectHttpOptionsAndBody := fun operation _ _ _ => (defaults, operation);
     fallbackHttpConfig :=
       {| http := Plain VUndefined; options := Plain VUndefined;
          credentials := Plain VUndefined; config_headers := Plain VUndefined |};
     serializeFetchParameter := fun b _ => JSON.stringify (json b);
     createSignalIfSupported := Some 0%nat;
     parseAndCheckHttpResponse := fun _ response => parsed response;
     extractFiles := fun b => (attachments b, {| json := json b; attachments := [] |});
     fetch := fun _ _ => reply |}.

Definition link : LinkOptions Response :=
  {| opt_uri := None; opt_fetch := None; opt_fetchOptions := VUndefined;
     opt_credentials := VUndefined; opt_headers := VUndefined;
     opt_includeExtensions := VUndefined |}.

Definition start : @World Response :=
  {| context := ∅; request_options := defaults; trace := [] |}.

Definition ok : Settled Response :=
  Fulfilled {| status := 200;
               parsed := Fulfilled (VObj [("data", VObj [("user", VNull)])]) |}.

Definition user_by_id : value :=
  VObj [("query", VStr "{ user(id: $id) { name } }");
        ("variables", VObj [("id", VNum 5)])].

Definition user_by_name : value :=
  VObj [("query", VStr "{ user(name: $name) { id } }");
        ("variables", VObj [("name", VStr "O'Brien")])].

Definition named_twice : value :=
  VObj [("operation", VStr "A");
        ("operationName", VStr "B");
        ("query", VStr "query B { me { id } }");
        ("variables", VObj [])].

(** A persisted query: the body carries no [query]. *)
Definition persisted : value :=
  VObj [("operationName", VStr "User");
        ("variables", VObj [("id", VNum 5)]);
        ("extensions", VObj [("persistedQuery", VObj [("version", VNum 1)])])].

Definition without_variables : value :=
  VObj [("operationName", VStr "Me"); ("query", VStr "{ me { id } }")].

Definition photo : File := {| name := Some "a.jpg"; content := "JFIF" |}.

Definition upload : Body :=
  {| json := VObj [("operationName", VStr "Upload");
                   ("variables", VObj [("file", VNull)]);
                   ("query", VStr "mutation ($file: Upload!) { upload(file: $file) { id } }")];
     attachments := [{| path := "variables.file"; file := photo |}] |}.

Definition plain (v : value) : Body := {| json := v; attachments := [] |}.

(** Failures of the network call. *)
Definition partial : value :=
  VObj [("data", VObj [("user", VNull)]);
        ("errors", VArr [VObj [("message", VStr "not found")]])].

Definition server_error : Error :=
  {| error_name := VStr "ServerError"; result := partial |}.

Definition aborted : Error :=
  {| error_name := VStr "AbortError"; result := VUndefined |}.

Definition aborted_with_result : Error :=
  {| error_name := VStr "AbortError"; result := partial |}.

Definition null_data : Error :=
  {| error_name := VStr "ServerError";
     result := VObj [("data", VNull);
                     ("errors", VArr [VObj [("message", VStr "denied")]])] |}.

(** The collaborators of the runs below, an Observable, a response, and the
    world the request handler leaves for the operation without variables. *)
Definition env : Collaborators Body Body Response := collaborators ok.

Definition user_query : @Observable Body :=
  {| uri := "/graphql"; operation := plain user_by_id |}.

Definition found : Response :=
  {| status := 200; parsed := Fulfilled (VObj [("data", VObj [("user", VNull)])]) |}.

Definition requested : @World Response :=
  (@request _ _ _ env link (plain without_variables) start).2.

End Scenario.

(** ** Reading texts *)

Module Text.
Import JS.

(** Does the character occur in the text? *)
Fixpoint occurs (c : ascii) (s : string) : bool :=
  match s with
  | EmptyString => false
  | String a s' => Ascii.eqb a c || occurs c s'
  end.

(** Are the two texts the same up to the case of the ASCII letters? *)
Definition same_ignoring_case (a b : string) : bool :=
  String.eqb (string_map upper a) (string_map upper b).

(** [ToString] returns for the value of each of the keys, and each key is
    made of word characters: the substitution loop is within the model and
    does not throw. *)
Definition substitutable (variables : value) (keys : list string) : Prop :=
  Forall (fun key => word key = true /\
                     exists v s, Get variables key = Normal v /\ ToString v = Normal s)
         keys.

End Text.

(** ** More operations and replies *)

Module Cases.
Import JS Link Scenario.

(** Collaborators whose serializer throws, as on a circular body. *)
Definition circular : Collaborators Body Body Response :=
  {| selectURI := fun _ _ fallback => fallback;
     selectHttpOptionsAndBody := fun operation _ _ _ => (defaults, operation);
     fallbackHttpConfig :=
       {| http := Plain VUndefined; options := Plain VUndefined;
          credentials := Plain VUndefined; config_headers := Plain VUndefined |};
     serializeFetchParameter := fun _ _ => None;
     createSignalIfSupported := None;
     parseAndCheckHttpResponse := fun _ response => parsed response;
     extractFiles := fun b => (attachments b, {| json := json b; attachments := [] |});
     fetch := fun _ _ => ok |}.

(** A response the parser rejects with a partial result. *)
Definition refused : Response :=
  {| status := 400; parsed := Rejected server_error |}.

(** A query that declares its variable and does not use it. *)
Definition declared : value :=
  VObj [("query", VStr "query Me($id: ID) { me { id } }");
        ("variables", VObj [("id", VNum 5)])].

(** The worlds the request handler leaves. *)
Definition requested_user : @World Response :=
  (@request _ _ _ env link (plain user_by_id) start).2.

(** What [linkFetch] receives for the persisted query and for the query by
    id. *)
Definition sent_persisted : Options :=
  {| headers := headers defaults;
     body := Some (TextBody (default "" (JSON.stringify persisted)));
     signal := Some 0%nat;
     others := others defaults |}.

Definition rewritten_user : value :=
  VObj [("operationName", VUndefined);
        ("query", VStr " query {  user(id: 5) { name }  } ");
        ("variables", VNull)].

Definition sent_user : Options :=
  {| headers := headers defaults;
     body := TextBody <$> JSON.stringify rewritten_user;
     signal := Some 0%nat;
     others := others defaults |}.

End Cases.

(** * Properties *)

(** ** The query rewriter *)

Section RewriterProperties.
Import JS Rewriter.

(** Case analysis on the completion a [let*] waits for. *)
Ltac step :=
  match goal with
  | H : context [bind ?c _] |- _ => destruct c eqn:?; simpl in H; try discriminate H
  | |- context [bind ?c _] => destruct c eqn:?; simpl
  end.

(** Whatever the key and the type of the value, the text handed to
    [replace] is the value itself: [val] is never used. *)
Lemma substitute_key_raw (variables v : value) (rawQuery key s : string) :
  Get variables key = Normal v ->
  word key = true ->
  ToString v = Normal s ->
  substitute_key variables rawQuery key
  = Normal (replace (IgnoreCase ("$" +:+ key)) s rawQuery).
Proof.
  intros Hget Hword Hs. unfold substitute_key, RegExp_dollar.
  rewrite Hget. cbn [bind].
  destruct (String.eqb (toLowerCase key) "id" || is_number v);
    cbn [bind]; rewrite ?Hs, Hword; cbn [bind]; rewrite ?Hs; reflexivity.
Qed.

(** C3: for the body with query [{ user(id: $id) { name } }] and variables
    [{id: 5}], the rewriter produces exactly the query
    [ query {  user(id: 5) { name }  } ]: the numeric id is substituted
    without quotes and the selection set is wrapped again. *)
Theorem rewrite_numeric_id :
  rewriteQuery (VObj [("query", VStr "{ user(id: $id) { name } }");
                      ("variables", VObj [("id", VNum 5)])])
  = Normal (VObj [("operationName", VUndefined);
                  ("query", VStr " query {  user(id: 5) { name }  } ");
                  ("variables", VNull)]).
Proof. reflexivity. Qed.

(** C1, on the code: for the key [name] and the string value [O'Brien],
    which is neither [id] nor a number, the text put in place of [$name] is
    the bare value: the single-quoted text held by [val] is not used. *)
Theorem string_value_substituted_bare :
  rewriteQuery (VObj [("query", VStr "{ user(name: $name) { id } }");
                      ("variables", VObj [("name", VStr "O'Brien")])])
  = Normal (VObj [("operationName", VUndefined);
                  ("query", VStr " query {  user(name: O'Brien) { id }  } ");
                  ("variables", VNull)]).
Proof. reflexivity. Qed.

(** C8: whenever the rewriter produces a body, that body is exactly
    [{operationName, query, variables: null}], and its [operationName] is
    what the input body holds under [operation]. *)
Theorem rewritten_body_shape (body out : value) :
  rewriteQuery body = Normal out ->
  exists (operation : value) (query : string),
    Get body "operation" = Normal operation /\
    out = VObj [("operationName", operation);
                ("query", VStr query);
                ("variables", VNull)].
Proof.
  unfold rewriteQuery. intros Hout.
  step. destruct a; try discriminate Hout.
  repeat step.
  injection Hout as <-. eauto.
Qed.

Lemma rewritten_body_shape_witness :
  rewriteQuery Scenario.named_twice
  = Normal (VObj [("operationName", VStr "A");
                  ("query", VStr " query {  me { id }  } ");
                  ("variables", VNull)]) /\
  exists (operation : value) (query : string),
    Get Scenario.named_twice "operation" = Normal operation /\
    VObj [("operationName", VStr "A");
          ("query", VStr " query {  me { id }  } ");
          ("variables", VNull)]
    = VObj [("operationName", operation);
            ("query", VStr query);
            ("variables", VNull)].
Proof.
  split; [reflexivity|].
  apply (rewritten_body_shape Scenario.named_twice). reflexivity.
Defined.

(** When the rewriter does produce a body. *)
Lemma substitute_returns (variables : value) (keys : list string) (rawQuery : string) :
  Forall (fun key => word key = true /\
                     exists v s, Get variables key = Normal v /\ ToString v = Normal s)
         keys ->
  exists q, substitute variables keys rawQuery = Normal q.
Proof.
  intros Hkeys. revert rawQuery.
  induction Hkeys as [|key keys (Hword & v & s & Hget & Hs) _ IH]; intros rawQuery; simpl.
  - eauto.
  - rewrite (substitute_key_raw _ _ _ _ _ Hget Hword Hs). simpl. apply IH.
Qed.

Lemma Get_returns (v x : value) (k k' : string) :
  Get v k = Normal x -> exists x', Get v k' = Normal x'.
Proof.
  destruct v; simpl; try discriminate; intros _; eauto.
  - destruct (array_index k'); [destruct (String.get _ _)|]; eauto.
  - destruct (array_index k'); eauto.
Qed.

Lemma rewriteQuery_returns (body variables : value) (query : string) (keys : list string) :
  Get body "query" = Normal (VStr query) ->
  Get body "variables" = Normal variables ->
  Object_keys variables = Normal keys ->
  Forall (fun key => word key = true /\
                     exists v s, Get variables key = Normal v /\ ToString v = Normal s)
         keys ->
  exists out, rewriteQuery body = Normal out.
Proof.
  intros Hquery Hvariables Hkeys Hwords. unfold rewriteQuery.
  rewrite Hquery. simpl. rewrite Hvariables. simpl. rewrite Hkeys. simpl.
  destruct (substitute_returns variables keys (selection_set query) Hwords) as [q ->].
  simpl. destruct (Get_returns body _ "query" "operation" Hquery) as [operation ->].
  simpl. eauto.
Qed.

End RewriterProperties.

(** ** The multipart encoder *)

Section EncoderProperties.
Import JS Link.

Lemma decimal_of_nat (i : nat) :
  decimal (Z.of_nat i) = NilEmpty.string_of_uint (N.to_uint (N.of_nat i)).
Proof.
  destruct i as [|i]; [reflexivity|].
  unfold decimal. simpl.
  pose proof (DecimalPos.Unsigned.to_uint_nonnil (Pos.of_succ_nat i)) as Hnil.
  destruct (Pos.to_uint (Pos.of_succ_nat i)); [contradiction | reflexivity..].
Qed.

Lemma array_index_decimal (i : nat) :
  array_index (decimal (Z.of_nat i))
  = if (N.of_nat i <? 2 ^ 32 - 1)%N then Some (N.of_nat i) else None.
Proof.
  rewrite decimal_of_nat. unfold array_index.
  rewrite NilEmpty.usu, DecimalN.Unsigned.of_to, String.eqb_refl. reflexivity.
Qed.

Lemma decimal_inj (i j : nat) :
  decimal (Z.of_nat i) = decimal (Z.of_nat j) -> i = j.
Proof.
  rewrite !decimal_of_nat. intros Heq.
  apply Nat2N.inj, DecimalN.Unsigned.to_uint_inj.
  pose proof (NilEmpty.usu (N.to_uint (N.of_nat i))) as Hi.
  rewrite Heq, NilEmpty.usu in Hi. congruence.
Qed.

Lemma indices_S (n : nat) : indices (S n) = (indices n ++ [decimal (Z.of_nat n)])%list.
Proof. unfold indices. rewrite seq_S, map_app. reflexivity. Qed.

Lemma has_key_indices (n : nat) (props : list (string * value)) :
  map fst props = indices n -> has_key (decimal (Z.of_nat n)) props = false.
Proof.
  intros Hkeys.
  assert (Hin : forall k, has_key k props = true -> In k (map fst props)).
  { clear. induction props as [|[k' v'] props IH]; simpl; [discriminate|].
    intros k Hk. apply orb_true_iff in Hk as [Hk|Hk]; [|auto].
    left. symmetry. by apply String.eqb_eq. }
  destruct (has_key _ props) eqn:Hk; [|reflexivity].
  apply Hin in Hk. rewrite Hkeys in Hk. unfold indices in Hk.
  apply in_map_iff in Hk as (i & Heq & Hi). apply in_seq in Hi.
  apply decimal_inj in Heq. lia.
Qed.

Lemma insert_index_last (n : N) (k : string) (v : value) (props : list (string * value)) :
  Forall (fun kv => exists m, array_index kv.1 = Some m /\ (m < n)%N) props ->
  insert_index n k v props = (props ++ [(k, v)])%list.
Proof.
  induction 1 as [|[k' v'] props (m & Hm & Hlt) _ IH]; [reflexivity|].
  simpl in *. rewrite Hm.
  destruct (N.ltb_spec m n); [|lia]. by rewrite IH.
Qed.

Lemma define_next_index (n : nat) (v : value) (props : list (string * value)) :
  map fst props = indices n ->
  define (decimal (Z.of_nat n)) v props = (props ++ [(decimal (Z.of_nat n), v)])%list.
Proof.
  intros Hkeys. unfold define. rewrite (has_key_indices _ _ Hkeys).
  rewrite array_index_decimal.
  destruct (N.ltb_spec (N.of_nat n) (2 ^ 32 - 1)) as [Hbound|]; [|reflexivity].
  apply insert_index_last.
  apply Forall_forall. intros [k' v'] Hin.
  apply list_elem_of_In, (in_map fst) in Hin. simpl in Hin.
  rewrite Hkeys in Hin. rename Hin into Hk. unfold indices in Hk.
  apply in_map_iff in Hk as (i & <- & Hi). apply in_seq in Hi.
  exists (N.of_nat i). simpl. rewrite array_index_decimal.
  destruct (N.ltb_spec (N.of_nat i) (2 ^ 32 - 1)); [split; [reflexivity | lia] | lia].
Qed.

Lemma file_map_from (files : list ExtractedFile) (index : nat) (acc : list (string * value)) :
  map fst acc = indices index ->
  reduce_from (fun map f i => define (decimal (Z.of_nat i)) (VArr [VStr (path f)]) map)
              index files acc
  = (acc ++ imap (fun i f => (decimal (Z.of_nat (index + i)), VArr [VStr (path f)])) files)%list.
Proof.
  revert index acc. induction files as [|f files IH]; intros index acc Hkeys; simpl.
  - by rewrite app_nil_r.
  - rewrite (define_next_index _ _ _ Hkeys), IH.
    + rewrite <- app_assoc. simpl. rewrite Nat.add_0_r. do 2 f_equal.
      apply imap_ext. intros i x _. simpl. do 3 f_equal. lia.
    + rewrite map_app, Hkeys, indices_S. reflexivity.
Qed.

Lemma file_map_spec (files : list ExtractedFile) :
  file_map files
  = VObj (imap (fun i f => (decimal (Z.of_nat i), VArr [VStr (path f)])) files).
Proof. unfold file_map, reduce. by rewrite file_map_from. Qed.

Lemma append_files_from (files : list ExtractedFile) (index : nat) (formData : FormData) :
  reduce_from (fun formData f i =>
                 append (decimal (Z.of_nat i)) (Binary (file f) (name (file f))) formData)
              index files formData
  = (formData ++ imap (fun i f => (decimal (Z.of_nat (index + i)),
                                   Binary (file f) (name (file f)))) files)%list.
Proof.
  revert index formData. induction files as [|f files IH]; intros index formData; simpl.
  - by rewrite app_nil_r.
  - rewrite IH. unfold append. rewrite <- app_assoc. simpl. rewrite Nat.add_0_r.
    do 2 f_equal. apply imap_ext. intros i x _. simpl. do 3 f_equal. lia.
Qed.

Lemma multipart_spec (payload : string) (files : list ExtractedFile) :
  exists map_json,
    JSON.stringify
      (VObj (imap (fun i f => (decimal (Z.of_nat i), VArr [VStr (path f)])) files))
    = Some map_json /\
    multipart payload files
    = ("operations", Text payload) :: ("map", Text map_json)
      :: imap (fun i f => (decimal (Z.of_nat i), Binary (file f) (name (file f)))) files.
Proof.
  unfold multipart, append_files, reduce. rewrite append_files_from, file_map_spec.
  eexists. split; [reflexivity|]. reflexivity.
Qed.

(** One file: the [map] field is [{"0":["<path>"]}]. *)
Lemma single_file_map (f : ExtractedFile) :
  JSON.stringify (file_map [f])
  = Some ("{" +:+ (JSON.quote "0" +:+ ":" +:+ "[" +:+ JSON.quote (path f) +:+ "]") +:+ "}").
Proof. reflexivity. Qed.

End EncoderProperties.

(** ** The link *)

Local Open Scope list_scope.

Section LinkProperties.
Import JS Rewriter Link.
Context {Operation Body Response : Type}.
Context `{Collaborators Operation Body Response}.

Local Abbreviation World := (@World Response).
Local Abbreviation Observer := (@Observer Response).
Local Abbreviation Observable := (@Observable Operation).

(** Unfolding of the state monad. *)
Ltac run := unfold seq, lift, log, modify, get, ret, when; simpl.

Lemma parse_FormData : JSON.parse "[object FormData]" = Throw SyntaxError.
Proof. vm_compute. reflexivity. Qed.

(** The world once the signal of the controller, if any, is on [options]. *)
Lemma subscriber_body (link : LinkOptions Response) (o : Observable) (w : World) :
  exists w0,
    context w0 = context w /\ trace w0 = trace w /\
    body (request_options w0) = body (request_options w) /\
    subscriber link o w =
      match JSON.parse (body_text (body (request_options w))) with
      | Normal b =>
          match Get b "query" with
          | Normal query =>
              if ToBoolean query then
                match rewriteQuery b with
                | Normal b' =>
                    let options :=
                      set_body (TextBody <$> JSON.stringify b') (request_options w0) in
                    (Normal (default fetch (opt_fetch link) (uri o) options),
                     {| context := context w; request_options := options;
                        trace := trace w ++ [RewriteQuery; Fetch (uri o) options] |})
                | Throw e => (Throw e, set_trace (trace w ++ [RewriteQuery]) w0)
                | Unmodelled => (Unmodelled, set_trace (trace w ++ [RewriteQuery]) w0)
                end
              else
                (Normal (default fetch (opt_fetch link) (uri o) (request_options w0)),
                 set_trace (trace w ++ [Fetch (uri o) (request_options w0)]) w0)
          | Throw e => (Throw e, w0)
          | Unmodelled => (Unmodelled, w0)
          end
      | Throw e => (Throw e, w0)
      | Unmodelled => (Unmodelled, w0)
      end.
Proof.
  unfold subscriber.
  destruct createSignalIfSupported as [c|]; simpl.
  - exists (set_options (set_signal (Some c) (request_options w)) w).
    repeat split. run.
    destruct (JSON.parse _) as [b| |]; simpl; try reflexivity.
    destruct (Get b "query") as [query| |]; simpl; try reflexivity.
    destruct (ToBoolean query); simpl; try reflexivity.
    destruct (rewriteQuery b); simpl; try reflexivity.
    by rewrite <- app_assoc.
  - exists w. repeat split. run.
    destruct (JSON.parse _) as [b| |]; simpl; try reflexivity.
    destruct (Get b "query") as [query| |]; simpl; try reflexivity.
    destruct (ToBoolean query); simpl; try reflexivity.
    destruct (rewriteQuery b); simpl; try reflexivity.
    by rewrite <- app_assoc.
Qed.

Lemma request_body (link : LinkOptions Response) (operation : Operation) (w : World)
  (options : Options) (body body' : Body) (files : list ExtractedFile) :
  selectHttpOptionsAndBody operation fallbackHttpConfig
    (linkConfig link) (contextConfig (context w)) = (options, body) ->
  extractFiles body = (files, body') ->
  request link operation w =
    match serializeFetchParameter body' "Payload" with
    | Some payload =>
        (Normal {| uri := selectURI operation (context w) (default "/graphql" (opt_uri link));
                   operation := operation |},
         {| context := context w;
            request_options := encode payload files options;
            trace := trace w ++ [ExtractFiles; SerializePayload]
                     ++ (if (length files =? 0)%nat then [] else [EncodeMultipart]) |})
    | None => (Throw Foreign, set_trace (trace w ++ [ExtractFiles; SerializePayload]) w)
    end.
Proof.
  intros Hselect Hextract. unfold request. run.
  rewrite Hselect. run. rewrite Hextract. run.
  destruct (serializeFetchParameter body' "Payload") as [payload|]; simpl.
  - destruct (length files =? 0)%nat; simpl; unfold set_options, set_trace; simpl;
      by rewrite <- ?app_assoc.
  - unfold set_trace. simpl. by rewrite <- app_assoc.
Qed.

(** C4: when files were extracted, the request handler leaves in [options]
    the headers without [content-type] and, as body, a [FormData] holding
    the payload under [operations], under [map] the JSON text of the object
    that maps each index, as a string, to the one-element array of the path
    of the file, and then each file under its index, with its name. *)
Theorem multipart_wire_body (link : LinkOptions Response) (operation : Operation)
  (w : World) (options : Options) (body body' : Body) (files : list ExtractedFile)
  (payload : string) :
  selectHttpOptionsAndBody operation fallbackHttpConfig
    (linkConfig link) (contextConfig (context w)) = (options, body) ->
  extractFiles body = (files, body') ->
  files <> [] ->
  serializeFetchParameter body' "Payload" = Some payload ->
  exists (map_json : string) (o : Observable) (w' : World),
    JSON.stringify
      (VObj (imap (fun index f => (decimal (Z.of_nat index), VArr [VStr (path f)])) files))
    = Some map_json /\
    request link operation w = (Normal o, w') /\
    request_options w' =
      {| headers := delete "content-type" (headers options);
         body := Some (FormBody
                   (("operations", Text payload) :: ("map", Text map_json)
                    :: imap (fun index f =>
                               (decimal (Z.of_nat index), Binary (file f) (name (file f))))
                            files));
         signal := signal options;
         others := others options |}.
Proof.
  intros Hselect Hextract Hfiles Hpayload.
  destruct (multipart_spec payload files) as (map_json & Hjson & Hmultipart).
  rewrite (request_body _ _ _ _ _ _ _ Hselect Hextract), Hpayload.
  eexists map_json, _, _. split; [exact Hjson|]. split; [reflexivity|].
  simpl. unfold encode. destruct files as [|f files]; [done|].
  change (length (f :: files) =? 0)%nat with false. cbv iota.
  rewrite Hmultipart. reflexivity.
Qed.

(** C9: when files were extracted, subscribing throws the SyntaxError of
    [JSON.parse] on the [FormData] body, and [linkFetch] is not called: the
    trace ends with the multipart encoding. *)
Theorem upload_never_fetched (link : LinkOptions Response) (operation : Operation)
  (observer : Observer) (w : World) (options : Options) (body body' : Body)
  (files : list ExtractedFile) (payload : string) :
  selectHttpOptionsAndBody operation fallbackHttpConfig
    (linkConfig link) (contextConfig (context w)) = (options, body) ->
  extractFiles body = (files, body') ->
  files <> [] ->
  serializeFetchParameter body' "Payload" = Some payload ->
  exists w' : World,
    execute link operation observer w = (Throw SyntaxError, w') /\
    trace w' = trace w ++ [ExtractFiles; SerializePayload; EncodeMultipart].
Proof.
  intros Hselect Hextract Hfiles Hpayload.
  unfold execute, seq at 1.
  rewrite (request_body _ _ _ _ _ _ _ Hselect Hextract), Hpayload.
  unfold subscribe, seq.
  match goal with |- context [subscriber link ?o ?w1] =>
    destruct (subscriber_body link o w1) as (w0 & _ & Htrace & _ & ->)
  end.
  simpl. unfold encode. destruct files as [|f files]; [done|].
  change (length (f :: files) =? 0)%nat with false. cbv iota. simpl body_text.
  rewrite parse_FormData. eexists. split; [reflexivity|]. exact Htrace.
Qed.

Lemma rewriteQuery_nullish (b query variables : value) :
  Get b "query" = Normal query ->
  ToBoolean query = true ->
  Get b "variables" = Normal variables ->
  variables = VUndefined \/ variables = VNull ->
  rewriteQuery b = Throw TypeError.
Proof.
  intros Hquery Htruthy Hvariables Hnullish. unfold rewriteQuery.
  rewrite Hquery. simpl.
  destruct query; try reflexivity.
  rewrite Hvariables. simpl. by destruct Hnullish as [-> | ->].
Qed.

(** C10: when the body parsed from [options.body] has a truthy [query] and
    its [variables] is missing or null, subscribing throws a TypeError once
    the rewriting has begun, and [linkFetch] is not called. *)
Theorem missing_variables_throw (link : LinkOptions Response) (o : Observable)
  (observer : Observer) (w : World) (b query variables : value) :
  JSON.parse (body_text (Link.body (request_options w))) = Normal b ->
  Get b "query" = Normal query ->
  ToBoolean query = true ->
  Get b "variables" = Normal variables ->
  variables = VUndefined \/ variables = VNull ->
  exists w' : World,
    subscribe link o observer w = (Throw TypeError, w') /\
    trace w' = trace w ++ [RewriteQuery].
Proof.
  intros Hparse Hquery Htruthy Hvariables Hnullish.
  unfold subscribe, seq.
  destruct (subscriber_body link o w) as (w0 & _ & _ & _ & ->).
  rewrite Hparse, Hquery, Htruthy,
    (rewriteQuery_nullish _ _ _ Hquery Htruthy Hvariables Hnullish).
  eexists. split; reflexivity.
Qed.

(** C7: when the response parser accepts the response, the chain has set
    the response on the context, then called the parser, then emitted
    [next]: the observer receives the result in a world whose context holds
    that response. *)
Theorem response_attached_before_next (o : Observable) (observer : Observer)
  (response : Response) (res : value) (w : World) :
  parseAndCheckHttpResponse (operation o) response = Fulfilled res ->
  exists w1 : World,
    trace w1 = trace w ++ [SetContext response; ParseResponse response; Next res] /\
    context w1 !! "response" = Some (Raw response) /\
    settle o observer (Fulfilled response) w
    = observer_complete observer (next observer res w1).
Proof.
  intros Hparsed. unfold settle, setContext. rewrite Hparsed. run.
  eexists {| context := _; request_options := _; trace := _ |}.
  split; [|split; [|reflexivity]]; simpl.
  - by rewrite <- !app_assoc.
  - apply lookup_insert_eq.
Qed.

Lemma emitted_app (tr1 tr2 : list (@Event Response)) :
  emitted (tr1 ++ tr2) = emitted tr1 ++ emitted tr2.
Proof. apply omap_app. Qed.

(** The world in which the [catch] callback runs. *)
Lemma settle_failure (o : Observable) (reply : Settled Response) (e : Error) (w : World) :
  failure o reply = Some e ->
  exists w1 : World,
    emitted (trace w1) = emitted (trace w) /\
    forall observer, settle o observer reply w = on_rejected observer e w1.
Proof.
  destruct reply as [response|e']; simpl.
  - destruct (parseAndCheckHttpResponse _ response) as [res|e'] eqn:Hparsed;
      intros [= <-].
    eexists. split; [|intros observer; unfold setContext; run; reflexivity].
    simpl. rewrite !emitted_app. simpl. by rewrite !app_nil_r.
  - intros [= <-]. exists w. split; reflexivity.
Qed.

(** C6: when the chain fails with an error named [AbortError], the world it
    leaves is the same for every observer, and no event was emitted. *)
Theorem abort_is_silent (o : Observable) (reply : Settled Response) (e : Error)
  (w : World) :
  failure o reply = Some e ->
  is_abort e = true ->
  exists w' : World,
    (forall observer, settle o observer reply w = (Normal tt, w')) /\
    emitted (trace w') = emitted (trace w).
Proof.
  intros Hfailure Habort.
  destruct (settle_failure o reply e w Hfailure) as (w1 & Hemitted & Hsettle).
  exists w1. split; [|exact Hemitted].
  intros observer. rewrite Hsettle. unfold on_rejected. by rewrite Habort.
Qed.

(** C5, amended: when the chain fails with an error that is not named
    [AbortError] and whose [result], [result.errors] and [result.data] are
    all truthy, the observer receives [next] with that result and then
    [error] with the failure, and nothing else. *)
Theorem partial_result_then_error (o : Observable) (observer : Observer)
  (reply : Settled Response) (e : Error) (w : World) :
  failure o reply = Some e ->
  is_abort e = false ->
  has_result e = Normal true ->
  exists w1 : World,
    emitted (trace w1) = emitted (trace w) /\
    settle o observer reply w
    = (observer_next observer (result e) ;; observer_error observer e) w1 /\
    emitted (trace (settle o silent reply w).2)
    = emitted (trace w) ++ [Next (result e); Failed e].
Proof.
  intros Hfailure Habort Hresult.
  destruct (settle_failure o reply e w Hfailure) as (w1 & Hemitted & Hsettle).
  exists w1. split; [exact Hemitted|].
  rewrite !Hsettle. unfold on_rejected. rewrite Habort.
  unfold seq at 1 3. unfold lift. rewrite Hresult. split; [reflexivity|].
  run. rewrite !emitted_app, Hemitted. simpl. by rewrite <- app_assoc.
Qed.


#[local] Arguments JSON.parse : simpl never.
#[local] Arguments rewriteQuery : simpl never.
#[local] Arguments Get : simpl never.
#[local] Arguments ToBoolean : simpl never.
#[local] Arguments encode : simpl never.

(** A list of stages taken, in order, from a longer one. *)
Ltac in_order :=
  cbn; repeat first [apply sublist_nil | apply sublist_skip | apply sublist_cons].

(** C2, amended: up to the call of [linkFetch], the stages that run do so in
    the order payload serializer, multipart encoder, query rewriter,
    transport.  The payload serializer always runs, and runs first; the
    multipart encoder runs only if files were extracted; the query rewriter
    runs exactly when the request handler returned and the body parsed back
    from [options.body] has a truthy [query]. *)
Theorem pipeline_order (link : LinkOptions Response) (operation : Operation) (w : World) :
  exists tr : list Event,
    trace (send link operation w).2 = trace w ++ tr /\
    stages tr `sublist_of` [PayloadSerializer; MultipartEncoder; QueryRewriter; Transport] /\
    head (stages tr) = Some PayloadSerializer /\
    (In MultipartEncoder (stages tr) -> extracted link operation w <> []) /\
    (In QueryRewriter (stages tr) <->
     exists (o : Observable) (w1 : World) (b query : value),
       request link operation w = (Normal o, w1) /\
       JSON.parse (body_text (body (request_options w1))) = Normal b /\
       Get b "query" = Normal query /\
       ToBoolean query = true).
Proof.
  unfold send, seq at 1, extracted.
  destruct (selectHttpOptionsAndBody operation fallbackHttpConfig
              (linkConfig link) (contextConfig (context w))) as [options body0] eqn:Hselect.
  destruct (extractFiles body0) as [files body'] eqn:Hextract.
  rewrite (request_body _ _ _ _ _ _ _ Hselect Hextract).
  cbn [fst snd].
  destruct (serializeFetchParameter body' "Payload") as [payload|].
  2:{ exists [ExtractFiles; SerializePayload]. cbn [fst snd set_trace trace].
      split; [reflexivity|].
      split; [in_order|].
      split; [reflexivity|].
      split; [cbn; intuition discriminate|].
      split; [cbn; intuition discriminate|].
      intros (? & ? & ? & ? & [=] & _). }
  match goal with |- context [subscriber link ?o ?w1] =>
    destruct (subscriber_body link o w1) as (w0 & _ & Htrace & _ & ->)
  end.
  cbn [fst snd trace request_options] in *.
  assert (Hfiles : (length files =? 0)%nat = false -> files <> [])
    by (destruct files; [discriminate | done]).
  destruct (length files =? 0)%nat;
    (destruct (JSON.parse _) as [b| |] eqn:Hparse;
     [destruct (Get b "query") as [query| |] eqn:Hquery;
      [destruct (ToBoolean query) eqn:Htruthy;
       [destruct (rewriteQuery b)|]|..]|..]).
  all: cbn [fst snd trace set_trace]; rewrite ?Htrace, <- ?app_assoc.
  all: cbn [trace].
  all: (eexists; split; [reflexivity|]).
  all: (split; [in_order|]).
  all: (split; [reflexivity|]).
  all: (split; [rewrite Hextract; cbn;
                  first [intros _; by apply Hfiles | intuition discriminate]|]).
  all: split.
  all: try (intros _; eexists _, _, b, query; by repeat split).
  all: try (cbn; intuition discriminate).
  all: try (intros _; cbn; tauto).
  all: try (intros (? & ? & ? & ? & [= <- <-] & Hp & Hq & Ht);
               cbn [request_options] in Hp; congruence).
Qed.

End LinkProperties.

(** ** The properties on concrete operations *)

Section Runs.
Import JS Rewriter Link Scenario.

(** C2, as stated, fails: for a plain query the payload serializer runs
    before the query rewriter, not after it; and for a body without [query]
    the rewriter does not run at all. *)
Lemma rewrite_after_serialization :
  stages (trace (@send _ _ _ env link (plain user_by_id) start).2)
  = [PayloadSerializer; QueryRewriter; Transport] /\
  stages (trace (@send _ _ _ env link (plain user_by_id) start).2)
  <> [QueryRewriter; PayloadSerializer; Transport] /\
  stages (trace (@send _ _ _ env link (plain persisted) start).2)
  = [PayloadSerializer; Transport].
Proof. repeat split; vm_compute; (reflexivity || discriminate). Qed.

(** C5, as stated, fails: an error named [AbortError] whose result holds
    [data] and [errors] gives the observer nothing, and an error whose
    result holds [errors] and a null [data] gives it only [error]. *)
Lemma partial_result_not_always_forwarded :
  holds_data_and_errors aborted_with_result = true /\
  emitted (trace (@settle _ _ _ env user_query silent (Rejected aborted_with_result) start).2)
  = [] /\
  holds_data_and_errors null_data = true /\
  emitted (trace (@settle _ _ _ env user_query silent (Rejected null_data) start).2)
  = [Failed null_data].
Proof. repeat split; vm_compute; reflexivity. Qed.

Lemma multipart_wire_body_witness :
  attachments upload <> [] /\
  exists (map_json : string) (o : Observable) (w' : World),
    JSON.stringify
      (VObj (imap (fun index f => (decimal (Z.of_nat index), VArr [VStr (path f)]))
                  (attachments upload)))
    = Some map_json /\
    @request _ _ _ env link upload start = (Normal o, w') /\
    request_options w' =
      {| headers := delete "content-type" (headers defaults);
         body := Some (FormBody
                   (("operations", Text (default "" (JSON.stringify (json upload))))
                    :: ("map", Text map_json)
                    :: imap (fun index f =>
                               (decimal (Z.of_nat index), Binary (file f) (name (file f))))
                            (attachments upload)));
         signal := signal defaults;
         others := others defaults |}.
Proof.
  split; [discriminate|].
  apply (@multipart_wire_body _ _ _ env link upload start defaults upload
           {| json := json upload; attachments := [] |});
    [reflexivity | reflexivity | discriminate | reflexivity].
Defined.

Lemma upload_never_fetched_witness :
  attachments upload <> [] /\
  exists w' : World,
    @execute _ _ _ env link upload silent start = (Throw SyntaxError, w') /\
    trace w' = trace start ++ [ExtractFiles; SerializePayload; EncodeMultipart].
Proof.
  split; [discriminate|].
  apply (@upload_never_fetched _ _ _ env link upload silent start defaults upload
           {| json := json upload; attachments := [] |} (attachments upload)
           (default "" (JSON.stringify (json upload))));
    [reflexivity | reflexivity | discriminate | reflexivity].
Defined.

Lemma missing_variables_throw_witness :
  JSON.parse (body_text (body (request_options requested))) = Normal without_variables /\
  Get without_variables "variables" = Normal VUndefined /\
  exists w' : World,
    @subscribe _ _ _ env link user_query silent requested = (Throw TypeError, w') /\
    trace w' = trace requested ++ [RewriteQuery].
Proof.
  split; [vm_compute; reflexivity|]. split; [reflexivity|].
  apply (@missing_variables_throw _ _ _ env link user_query silent requested
           without_variables (VStr "{ me { id } }") VUndefined);
    [vm_compute; reflexivity | reflexivity | reflexivity | reflexivity | left; reflexivity].
Defined.

Lemma response_attached_before_next_witness :
  parsed found = Fulfilled (VObj [("data", VObj [("user", VNull)])]) /\
  exists w1 : World,
    trace w1 = trace start
               ++ [SetContext found; ParseResponse found;
                   Next (VObj [("data", VObj [("user", VNull)])])] /\
    context w1 !! "response" = Some (Raw found) /\
    @settle _ _ _ env user_query silent (Fulfilled found) start
    = observer_complete silent
        (next silent (VObj [("data", VObj [("user", VNull)])]) w1).
Proof.
  split; [reflexivity|].
  apply (@response_attached_before_next _ _ _ env user_query silent found). reflexivity.
Defined.

Lemma abort_is_silent_witness :
  is_abort aborted = true /\
  exists w' : World,
    (forall observer,
       @settle _ _ _ env user_query observer (Rejected aborted) start = (Normal tt, w')) /\
    emitted (trace w') = emitted (trace start).
Proof.
  split; [reflexivity|].
  apply (@abort_is_silent _ _ _ env user_query (Rejected aborted) aborted start);
    reflexivity.
Defined.

Lemma partial_result_then_error_witness :
  is_abort server_error = false /\
  has_result server_error = Normal true /\
  exists w1 : World,
    emitted (trace w1) = emitted (trace start) /\
    @settle _ _ _ env user_query silent (Rejected server_error) start
    = (observer_next silent (result server_error) ;; observer_error silent server_error) w1 /\
    emitted (trace (@settle _ _ _ env user_query silent (Rejected server_error) start).2)
    = emitted (trace start) ++ [Next (result server_error); Failed server_error].
Proof.
  split; [reflexivity|]. split; [reflexivity|].
  apply (@partial_result_then_error _ _ _ env user_query silent
           (Rejected server_error) server_error start);
    reflexivity.
Defined.

End Runs.

(** * Further properties *)

(** ** Texts *)

Section TextProperties.
Import JS Rewriter Text.

Lemma append_cons (c : ascii) (s t : string) : String c s +:+ t = String c (s +:+ t).
Proof. reflexivity. Qed.

Lemma append_assoc (s t u : string) : (s +:+ t) +:+ u = s +:+ (t +:+ u).
Proof.
  induction s as [|c s IH]; [reflexivity|].
  rewrite !append_cons. by rewrite IH.
Qed.

Lemma append_empty (s : string) : s +:+ "" = s.
Proof. induction s as [|c s IH]; [reflexivity|]. rewrite append_cons. by rewrite IH. Qed.

Lemma split_nonempty (sep : ascii) (s : string) : split sep s <> [].
Proof.
  destruct s as [|c s]; simpl; [discriminate|].
  destruct (Ascii.eqb c sep); [discriminate|].
  destruct (split sep s); discriminate.
Qed.

Lemma split_without (sep : ascii) (s : string) :
  occurs sep s = false -> split sep s = [s].
Proof.
  induction s as [|c s IH]; simpl; [reflexivity|].
  intros Hs. apply orb_false_iff in Hs as [Hc Hs].
  rewrite Hc, (IH Hs). reflexivity.
Qed.

Lemma split_append (sep : ascii) (a b : string) :
  split sep (a +:+ String sep b) = split sep a ++ split sep b.
Proof.
  induction a as [|c a IH]; rewrite ?append_cons; simpl.
  - by rewrite Ascii.eqb_refl.
  - rewrite IH. destruct (Ascii.eqb c sep); [reflexivity|].
    pose proof (split_nonempty sep a) as Hne.
    destruct (split sep a); [done | reflexivity].
Qed.

Lemma join_split (sep : ascii) (s : string) :
  join (char_string sep) (split sep s) = s.
Proof.
  induction s as [|c s IH]; [reflexivity|]. simpl.
  pose proof (split_nonempty sep s) as Hne.
  destruct (Ascii.eqb_spec c sep) as [->|_].
  - destruct (split sep s) as [|h t]; [done|].
    change (join (char_string sep) ("" :: h :: t))
      with (String sep (join (char_string sep) (h :: t))).
    by rewrite IH.
  - destruct (split sep s) as [|h [|h' t]]; [done| |].
    + simpl in *. by rewrite IH.
    + change (join (char_string sep) (String c h :: h' :: t))
        with (String c (join (char_string sep) (h :: h' :: t))).
      by rewrite IH.
Qed.

Lemma slice_init {A} (init : list A) (x : A) : slice 0 (-1) (init ++ [x]) = init.
Proof.
  unfold slice. rewrite length_app. simpl.
  replace (Z.of_nat (length init + 1) + -1)%Z with (Z.of_nat (length init)) by lia.
  rewrite Z.max_l by lia. rewrite Z.min_l by lia. simpl.
  rewrite Z.sub_0_r, Nat2Z.id. change (Z.to_nat 0) with 0%nat.
  rewrite drop_0. apply take_app_length.
Qed.


(** X1: when the query is a head without opening brace, an opening brace, a
    text, a closing brace and a trailer without closing brace, the
    selection set is that text, whatever braces it holds. *)
Theorem selection_set_between_braces (head inner trailer : string) :
  occurs "{" head = false ->
  occurs "}" trailer = false ->
  selection_set (head +:+ "{" +:+ inner +:+ "}" +:+ trailer) = inner.
Proof.
  intros Hhead Htrailer. unfold selection_set.
  change (head +:+ "{" +:+ inner +:+ "}" +:+ trailer)
    with (head +:+ String "{" (inner +:+ String "}" trailer)).
  rewrite split_append, (split_without _ _ Hhead). unfold splice. cbn [app drop]. rewrite drop_0.
  change "{" with (char_string "{"). rewrite join_split.
  rewrite split_append, (split_without _ _ Htrailer), slice_init.
  change "}" with (char_string "}"). apply join_split.
Qed.

(** X2: a query without opening brace, or without closing brace after the
    first opening one, has the empty selection set. *)
Theorem selection_set_unbalanced (query : string) :
  occurs "{" query = false \/
  (exists head rest, query = head +:+ "{" +:+ rest /\
                     occurs "{" head = false /\ occurs "}" rest = false) ->
  selection_set query = "".
Proof.
  unfold selection_set. intros [Hquery | (head & rest & -> & Hhead & Hrest)].
  - by rewrite (split_without _ _ Hquery).
  - change (head +:+ "{" +:+ rest) with (head +:+ String "{" rest).
    rewrite split_append, (split_without _ _ Hhead). unfold splice. cbn [app drop]. rewrite drop_0.
    change "{" with (char_string "{"). rewrite join_split.
    by rewrite (split_without _ _ Hrest).
Qed.

End TextProperties.

(** ** The query rewriter, continued *)

Section RewriterFurther.
Import JS Rewriter Text.

Lemma remove_newlines_clean (s : string) : occurs LF (remove_newlines s) = false.
Proof.
  induction s as [|c s IH]; [reflexivity|]. simpl.
  destruct (Ascii.eqb c LF) eqn:Hc; [exact IH|]. simpl. by rewrite Hc, IH.
Qed.

(** X3: whatever the operation keyword of the input, the rewritten query is
    [ query { ] followed by a text without line feed and by [ } ]. *)
Theorem rewritten_query_frame (body out : value) :
  rewriteQuery body = Normal out ->
  exists inner : string,
    Get out "query" = Normal (VStr (" query { " +:+ inner +:+ " } ")) /\
    occurs LF inner = false.
Proof.
  unfold rewriteQuery. intros Hout.
  destruct (Get body "query") as [query| |]; simpl in Hout; try discriminate.
  destruct query; try discriminate.
  destruct (Get body "variables") as [variables| |]; simpl in Hout; try discriminate.
  destruct (Object_keys variables) as [keys| |]; simpl in Hout; try discriminate.
  destruct (substitute variables keys _) as [q| |]; simpl in Hout; try discriminate.
  destruct (Get body "operation") as [operation| |]; simpl in Hout; try discriminate.
  injection Hout as <-. exists (remove_newlines q).
  split; [reflexivity | apply remove_newlines_clean].
Qed.

Lemma upper_keeps_dollar (c : ascii) :
  Ascii.eqb c "$" = false -> Ascii.eqb (upper "$") (upper c) = false.
Proof. destruct c as [[] [] [] [] [] [] [] []]; intros Hc; try reflexivity; discriminate. Qed.

Lemma same_ignoring_case_cons (a b : ascii) (s t : string) :
  same_ignoring_case (String a s) (String b t) = true ->
  Ascii.eqb (upper a) (upper b) = true /\ same_ignoring_case s t = true.
Proof.
  unfold same_ignoring_case. simpl. intros Heq.
  destruct (Ascii.eqb (upper a) (upper b)); [by split | discriminate].
Qed.

Lemma match_here_same (key p after : string) :
  same_ignoring_case key p = true -> match_here key (p +:+ after) = true.
Proof.
  revert p. induction key as [|a key IH]; intros [|b p] Hsame; try reflexivity;
    try (apply String.eqb_eq in Hsame; discriminate).
  apply same_ignoring_case_cons in Hsame as [Hab Hsame].
  rewrite append_cons. simpl. by rewrite Hab, IH.
Qed.

Lemma same_ignoring_case_length (key p : string) :
  same_ignoring_case key p = true -> String.length key = String.length p.
Proof.
  revert p. induction key as [|a key IH]; intros [|b p] Hsame; try reflexivity;
    try (apply String.eqb_eq in Hsame; discriminate).
  apply same_ignoring_case_cons in Hsame as [_ Hsame]. simpl. by rewrite (IH p).
Qed.

Lemma substring_prefix (p after : string) :
  substring 0 (String.length p) (p +:+ after) = p.
Proof.
  induction p as [|c p IH].
  - by destruct after.
  - rewrite append_cons. simpl. by rewrite IH.
Qed.

Lemma substring_whole (s : string) : substring 0 (String.length s) s = s.
Proof. induction s as [|c s IH]; simpl; [reflexivity | by rewrite IH]. Qed.

Lemma length_append (s t : string) :
  String.length (s +:+ t) = (String.length s + String.length t)%nat.
Proof. induction s as [|c s IH]; [reflexivity|]. rewrite append_cons. simpl. by rewrite IH. Qed.

Lemma substring_suffix (p after : string) :
  substring (String.length p) (String.length (p +:+ after) - String.length p) (p +:+ after)
  = after.
Proof.
  induction p as [|c p IH].
  - change ("" +:+ after) with after. simpl. rewrite Nat.sub_0_r. apply substring_whole.
  - rewrite append_cons. simpl. exact IH.
Qed.

Lemma exec_first (key p before after : string) :
  occurs "$" before = false ->
  same_ignoring_case key p = true ->
  exec (IgnoreCase ("$" +:+ key)) (before +:+ "$" +:+ p +:+ after)
  = Some (before, "$" +:+ p, after).
Proof.
  intros Hbefore Hsame.
  change ("$" +:+ key) with (String "$" key).
  change (before +:+ "$" +:+ p +:+ after) with (before +:+ String "$" (p +:+ after)).
  change ("$" +:+ p) with (String "$" p).
  induction before as [|c before IH].
  - change ("" +:+ String "$" (p +:+ after)) with (String "$" (p +:+ after)).
    cbn [exec match_here]. rewrite Ascii.eqb_refl, (match_here_same _ _ _ Hsame).
    cbn [andb]. do 2 f_equal.
    + f_equal. rewrite <- (append_cons "$" p after).
      replace (String.length (String "$" key)) with (String.length (String "$" p))
        by (simpl; by rewrite (same_ignoring_case_length _ _ Hsame)).
      apply substring_prefix.
    + rewrite <- (append_cons "$" p after).
      replace (String.length (String "$" key)) with (String.length (String "$" p))
        by (simpl; by rewrite (same_ignoring_case_length _ _ Hsame)).
      apply substring_suffix.
  - simpl in Hbefore. apply orb_false_iff in Hbefore as [Hc Hbefore].
    rewrite append_cons. cbn [exec match_here].
    rewrite (upper_keeps_dollar _ Hc). cbn [andb].
    fold (exec (IgnoreCase (String "$" key))). rewrite (IH Hbefore). reflexivity.
Qed.

Lemma GetSubstitution_plain (matched before after replacement : string) :
  occurs "$" replacement = false ->
  GetSubstitution matched before after replacement = replacement.
Proof.
  induction replacement as [|c r IH]; [reflexivity|]. simpl.
  intros Hr. apply orb_false_iff in Hr as [Hc Hr]. by rewrite Hc, IH.
Qed.

(** X4: the first placeholder is replaced by the text of the value.  The
    letters of the placeholder may differ in case from the key, and the
    text that follows the placeholder is not looked at: a key matches the
    beginning of a longer name. *)
Theorem placeholder_replaced (variables v : value) (key p s before after : string) :
  Get variables key = Normal v ->
  word key = true ->
  ToString v = Normal s ->
  occurs "$" s = false ->
  occurs "$" before = false ->
  same_ignoring_case key p = true ->
  substitute_key variables (before +:+ "$" +:+ p +:+ after) key
  = Normal (before +:+ s +:+ after).
Proof.
  intros Hget Hword Hs Hplain Hbefore Hsame.
  rewrite (substitute_key_raw _ _ _ _ _ Hget Hword Hs).
  unfold replace. rewrite (exec_first _ _ _ _ Hbefore Hsame).
  by rewrite (GetSubstitution_plain _ _ _ _ Hplain).
Qed.

Lemma exec_none (key s : string) :
  occurs "$" s = false -> exec (IgnoreCase (String "$" key)) s = None.
Proof.
  induction s as [|c s IH]; [reflexivity|]. simpl occurs.
  intros Hs. apply orb_false_iff in Hs as [Hc Hs].
  cbn [exec match_here]. rewrite (upper_keeps_dollar _ Hc). cbn [andb].
  fold (exec (IgnoreCase (String "$" key))). by rewrite (IH Hs).
Qed.

Lemma substitute_unused (variables : value) (keys : list string) (q : string) :
  substitutable variables keys ->
  occurs "$" q = false ->
  substitute variables keys q = Normal q.
Proof.
  intros Hkeys Hq.
  induction Hkeys as [|key keys (Hword & v & s & Hget & Hs) _ IH]; [reflexivity|].
  simpl. rewrite (substitute_key_raw _ _ _ _ _ Hget Hword Hs).
  unfold replace. change ("$" +:+ key) with (String "$" key).
  rewrite (exec_none _ _ Hq). simpl. exact IH.
Qed.

(** X5: when the selection set holds no dollar sign, the rewritten query is
    the selection set without its line feeds, wrapped; the variables are
    dropped all the same. *)
Theorem unused_variables_dropped (body variables operation : value) (query : string)
  (keys : list string) :
  Get body "query" = Normal (VStr query) ->
  Get body "variables" = Normal variables ->
  Get body "operation" = Normal operation ->
  Object_keys variables = Normal keys ->
  substitutable variables keys ->
  occurs "$" (selection_set query) = false ->
  rewriteQuery body
  = Normal (VObj [("operationName", operation);
                  ("query", VStr (" query { " +:+ remove_newlines (selection_set query)
                                  +:+ " } "));
                  ("variables", VNull)]).
Proof.
  intros Hquery Hvariables Hoperation Hkeys Hsubst Hplain. unfold rewriteQuery.
  rewrite Hquery. simpl. rewrite Hvariables. simpl. rewrite Hkeys. simpl.
  rewrite (substitute_unused _ _ _ Hsubst Hplain). simpl.
  rewrite Hoperation. reflexivity.
Qed.

(** X6: a body without [operation] (the link builds [operationName]) loses
    its operation name: the text of the rewritten body holds the query and
    [variables: null], and nothing else. *)
Theorem operation_name_lost (body out : value) :
  rewriteQuery body = Normal out ->
  Get body "operation" = Normal VUndefined ->
  exists q : string,
    Get out "query" = Normal (VStr q) /\
    JSON.stringify out
    = Some ("{" +:+ ((JSON.quote "query" +:+ ":" +:+ JSON.quote q) +:+ ","
                     +:+ (JSON.quote "variables" +:+ ":" +:+ "null")) +:+ "}").
Proof.
  unfold rewriteQuery. intros Hout Hoperation.
  destruct (Get body "query") as [query| |]; simpl in Hout; try discriminate.
  destruct query; try discriminate.
  destruct (Get body "variables") as [variables| |]; simpl in Hout; try discriminate.
  destruct (Object_keys variables) as [keys| |]; simpl in Hout; try discriminate.
  destruct (substitute variables keys _) as [q| |]; simpl in Hout; try discriminate.
  rewrite Hoperation in Hout. injection Hout as <-.
  eexists. split; reflexivity.
Qed.

End RewriterFurther.

(** ** The link, continued *)

Section LinkFurther.
Import JS Rewriter Link Text.
Context {Operation Body Response : Type}.
Context `{Collaborators Operation Body Response}.

Local Abbreviation World := (@World Response).
Local Abbreviation Observer := (@Observer Response).
Local Abbreviation Observable := (@Observable Operation).

(** Unfolding of the state monad. *)
Ltac run := unfold seq, lift, log, modify, get, ret, when; simpl.

(** X7: when no file was extracted, the request handler builds no
    [FormData]: it leaves the payload, as it is, as the body, and the
    headers, the signal and the other options as they were resolved. *)
Theorem plain_request_body (link : LinkOptions Response) (operation : Operation)
  (w : World) (options : Options) (body body' : Body) (payload : string) :
  selectHttpOptionsAndBody operation fallbackHttpConfig
    (linkConfig link) (contextConfig (context w)) = (options, body) ->
  extractFiles body = ([], body') ->
  serializeFetchParameter body' "Payload" = Some payload ->
  exists (o : Observable) (w' : World),
    request link operation w = (Normal o, w') /\
    uri o = selectURI operation (context w) (default "/graphql" (opt_uri link)) /\
    request_options w' =
      {| headers := headers options; body := Some (TextBody payload);
         signal := signal options; others := others options |} /\
    context w' = context w /\
    trace w' = trace w ++ [ExtractFiles; SerializePayload].
Proof.
  intros Hselect Hextract Hpayload.
  rewrite (request_body _ _ _ _ _ _ _ Hselect Hextract), Hpayload.
  eexists _, _. repeat split.
Qed.

(** X8: when the payload cannot be serialized, the request handler throws
    after the extraction of the files and returns no Observable; the
    options and the context are left as they were, and nothing is encoded. *)
Theorem unserializable_payload (link : LinkOptions Response) (operation : Operation)
  (w : World) (options : Options) (body body' : Body) (files : list ExtractedFile) :
  selectHttpOptionsAndBody operation fallbackHttpConfig
    (linkConfig link) (contextConfig (context w)) = (options, body) ->
  extractFiles body = (files, body') ->
  serializeFetchParameter body' "Payload" = None ->
  exists w' : World,
    request link operation w = (Throw Foreign, w') /\
    request_options w' = request_options w /\
    context w' = context w /\
    trace w' = trace w ++ [ExtractFiles; SerializePayload].
Proof.
  intros Hselect Hextract Hpayload.
  rewrite (request_body _ _ _ _ _ _ _ Hselect Hextract), Hpayload.
  eexists. repeat split.
Qed.

(** The subscriber when the body parses and its query is falsy, and when
    the query is truthy and rewritten; [options] is the options object once
    the signal of the controller, if there is one, is set. *)
Lemma subscriber_falsy (link : LinkOptions Response) (o : Observable) (w : World)
  (b query : value) :
  JSON.parse (body_text (body (request_options w))) = Normal b ->
  Get b "query" = Normal query ->
  ToBoolean query = false ->
  let options :=
    set_signal (match createSignalIfSupported with
                | Some c => Some c
                | None => signal (request_options w)
                end) (request_options w) in
  subscriber link o w =
    (Normal (default fetch (opt_fetch link) (uri o) options),
     {| context := context w; request_options := options;
        trace := trace w ++ [Fetch (uri o) options] |}).
Proof.
  intros Hparse Hquery Hfalsy. unfold subscriber.
  destruct createSignalIfSupported as [c|]; run;
    rewrite Hparse; run; rewrite Hquery; run; rewrite Hfalsy; run;
    destruct w as [? [] ?]; reflexivity.
Qed.

Lemma subscriber_rewrites (link : LinkOptions Response) (o : Observable) (w : World)
  (b query out : value) :
  JSON.parse (body_text (body (request_options w))) = Normal b ->
  Get b "query" = Normal query ->
  ToBoolean query = true ->
  rewriteQuery b = Normal out ->
  let options :=
    set_body (TextBody <$> JSON.stringify out)
      (set_signal (match createSignalIfSupported with
                   | Some c => Some c
                   | None => signal (request_options w)
                   end) (request_options w)) in
  subscriber link o w =
    (Normal (default fetch (opt_fetch link) (uri o) options),
     {| context := context w; request_options := options;
        trace := trace w ++ [RewriteQuery; Fetch (uri o) options] |}).
Proof.
  intros Hparse Hquery Htruthy Hout. unfold subscriber.
  destruct createSignalIfSupported as [c|]; run;
    rewrite Hparse; run; rewrite Hquery; run; rewrite Htruthy; run;
    rewrite Hout; run; rewrite <- app_assoc; reflexivity.
Qed.

(** X9: an operation without file whose payload parses to a body with a
    falsy [query] (none, or the empty text) is sent as it was serialized:
    [linkFetch] receives the payload as body, the resolved headers and
    options, and the signal of the controller if there is one. *)
Theorem payload_sent_unchanged (link : LinkOptions Response) (operation : Operation)
  (w : World) (options : Options) (body body' : Body) (payload : string)
  (b query : value) :
  selectHttpOptionsAndBody operation fallbackHttpConfig
    (linkConfig link) (contextConfig (context w)) = (options, body) ->
  extractFiles body = ([], body') ->
  serializeFetchParameter body' "Payload" = Some payload ->
  JSON.parse payload = Normal b ->
  Get b "query" = Normal query ->
  ToBoolean query = false ->
  let uri := selectURI operation (context w) (default "/graphql" (opt_uri link)) in
  let sent :=
    {| headers := headers options; body := Some (TextBody payload);
       signal := match createSignalIfSupported with
                 | Some c => Some c
                 | None => signal options
                 end;
       others := others options |} in
  exists w' : World,
    send link operation w = (Normal (default fetch (opt_fetch link) uri sent), w') /\
    trace w' = trace w ++ [ExtractFiles; SerializePayload; Fetch uri sent] /\
    context w' = context w.
Proof.
  intros Hselect Hextract Hpayload Hparse Hquery Hfalsy uri sent.
  unfold send, seq at 1.
  rewrite (request_body _ _ _ _ _ _ _ Hselect Hextract), Hpayload.
  rewrite (subscriber_falsy _ _ _ b query); [|exact Hparse|exact Hquery|exact Hfalsy].
  eexists. split; [reflexivity|]. split; [|reflexivity].
  simpl. by rewrite <- app_assoc.
Qed.

(** X10: an operation without file whose payload parses to a body with a
    truthy [query] that the rewriter accepts is sent rewritten: [linkFetch]
    receives the JSON text of the rewritten body, the headers and the
    options being those resolved for the payload. *)
Theorem rewritten_body_sent (link : LinkOptions Response) (operation : Operation)
  (w : World) (options : Options) (body body' : Body) (payload : string)
  (b query out : value) :
  selectHttpOptionsAndBody operation fallbackHttpConfig
    (linkConfig link) (contextConfig (context w)) = (options, body) ->
  extractFiles body = ([], body') ->
  serializeFetchParameter body' "Payload" = Some payload ->
  JSON.parse payload = Normal b ->
  Get b "query" = Normal query ->
  ToBoolean query = true ->
  rewriteQuery b = Normal out ->
  let uri := selectURI operation (context w) (default "/graphql" (opt_uri link)) in
  let sent :=
    {| headers := headers options; body := TextBody <$> JSON.stringify out;
       signal := match createSignalIfSupported with
                 | Some c => Some c
                 | None => signal options
                 end;
       others := others options |} in
  exists w' : World,
    send link operation w = (Normal (default fetch (opt_fetch link) uri sent), w') /\
    trace w' = trace w ++ [ExtractFiles; SerializePayload; RewriteQuery; Fetch uri sent] /\
    request_options w' = sent.
Proof.
  intros Hselect Hextract Hpayload Hparse Hquery Htruthy Hout uri sent.
  unfold send, seq at 1.
  rewrite (request_body _ _ _ _ _ _ _ Hselect Hextract), Hpayload.
  rewrite (subscriber_rewrites _ _ _ b query out);
    [|exact Hparse|exact Hquery|exact Htruthy|exact Hout].
  eexists. split; [reflexivity|]. split; [|reflexivity].
  simpl. by rewrite <- app_assoc.
Qed.

(** X15: up to the call of [linkFetch], whatever happens (a throw of the
    serializer, of [JSON.parse], of the rewriter, or the call itself), the
    context of the operation is not written. *)
Theorem context_untouched_before_reply (link : LinkOptions Response)
  (operation : Operation) (w : World) :
  context (send link operation w).2 = context w.
Proof.
  unfold send, seq at 1.
  destruct (selectHttpOptionsAndBody operation fallbackHttpConfig
              (linkConfig link) (contextConfig (context w))) as [options body0] eqn:Hselect.
  destruct (extractFiles body0) as [files body'] eqn:Hextract.
  rewrite (request_body _ _ _ _ _ _ _ Hselect Hextract).
  destruct (serializeFetchParameter body' "Payload") as [payload|]; [|reflexivity].
  match goal with |- context [subscriber link ?o ?w1] =>
    destruct (subscriber_body link o w1) as (w0 & Hcontext & _ & _ & ->)
  end.
  cbn [context] in Hcontext.
  destruct (JSON.parse _) as [b| |]; [|exact Hcontext..].
  destruct (Get b "query") as [query| |]; [|exact Hcontext..].
  destruct (ToBoolean query); [|exact Hcontext].
  destruct (rewriteQuery b); [reflexivity | exact Hcontext..].
Qed.




(** X12: when the response parser rejects the response, the [catch]
    callback runs in a world whose context already holds that response, and
    nothing else of the context has changed; when [linkFetch] itself
    rejects, the context is as it was. *)
Theorem response_kept_on_failure (o : Observable) (observer : Observer)
  (reply : Settled Response) (e : Error) (w : World) :
  failure o reply = Some e ->
  exists w1 : World,
    settle o observer reply w = on_rejected observer e w1 /\
    context w1 = match reply with
                 | Fulfilled response => <["response" := Raw response]> (context w)
                 | Rejected _ => context w
                 end.
Proof.
  destruct reply as [response|e']; simpl.
  - destruct (parseAndCheckHttpResponse (operation o) response) as [res|e'] eqn:Hparsed;
      intros [= <-].
    unfold setContext. run. eexists. split; reflexivity.
  - intros [= <-]. exists w. split; reflexivity.
Qed.

End LinkFurther.

(** ** The multipart encoder, continued *)

Section EncoderFurther.
Import JS Link.

Lemma decimal_digits (i : nat) :
  is_Some (NilEmpty.uint_of_string (decimal (Z.of_nat i))).
Proof. rewrite decimal_of_nat, NilEmpty.usu. eauto. Qed.

Lemma assoc_imap {A} (h : nat -> string) (g : A -> value) (l : list A) (i : nat) (x : A) :
  (forall j k, h j = h k -> j = k) ->
  l !! i = Some x ->
  assoc (h i) (imap (fun j y => (h j, g y)) l) = Some (g x).
Proof.
  revert h i. induction l as [|y l IH]; intros h i Hinj Hi; [done|].
  destruct i as [|i]; simpl in *.
  - injection Hi as ->. by rewrite String.eqb_refl.
  - destruct (String.eqb_spec (h (S i)) (h 0%nat)) as [Heq|_];
      [by apply Hinj in Heq|].
    apply (IH (h ∘ S) i); [|exact Hi].
    intros j k Hjk. apply Hinj in Hjk. lia.
Qed.

Lemma filter_imap_none {A B} (h : nat -> string) (g : A -> B) (l : list A) (key : string) :
  (forall j, h j <> key) ->
  filter (fun entry : string * B => entry.1 = key) (imap (fun j y => (h j, g y)) l) = [].
Proof.
  revert h. induction l as [|y l IH]; intros h Hkey; [reflexivity|]. simpl.
  rewrite filter_cons_False by (simpl; apply Hkey).
  apply (IH (h ∘ S)). intros j. apply Hkey.
Qed.

Lemma filter_imap_one {A B} (h : nat -> string) (g : A -> B) (l : list A) (i : nat) (x : A) :
  (forall j k, h j = h k -> j = k) ->
  l !! i = Some x ->
  filter (fun entry : string * B => entry.1 = h i) (imap (fun j y => (h j, g y)) l)
  = [(h i, g x)].
Proof.
  revert h i. induction l as [|y l IH]; intros h i Hinj Hi; [done|].
  destruct i as [|i]; simpl in *.
  - injection Hi as ->. rewrite filter_cons_True by reflexivity.
    f_equal. apply (filter_imap_none (h ∘ S)).
    intros j Heq. apply Hinj in Heq. lia.
  - rewrite filter_cons_False by (simpl; intros Heq; by apply Hinj in Heq).
    apply (IH (h ∘ S) i); [|exact Hi].
    intros j k Hjk. apply Hinj in Hjk. lia.
Qed.

(** X13: the [map] field and the binary parts agree.  For the file at
    position [i], the object written under [map] holds under the key [i]
    the one-element array of the path of that file, and the [FormData] has
    exactly one field named [i]: that file, with its name. *)
Theorem map_and_parts_agree (payload : string) (files : list ExtractedFile)
  (i : nat) (f : ExtractedFile) :
  files !! i = Some f ->
  Get (file_map files) (decimal (Z.of_nat i)) = Normal (VArr [VStr (path f)]) /\
  filter (fun entry : string * Part => entry.1 = decimal (Z.of_nat i))
         (multipart payload files : list (string * Part))
  = [(decimal (Z.of_nat i), Binary (file f) (name (file f)))].
Proof.
  intros Hi.
  assert (Hinj : forall j k : nat, decimal (Z.of_nat j) = decimal (Z.of_nat k) -> j = k)
    by apply decimal_inj.
  split.
  - rewrite file_map_spec. simpl.
    by rewrite (assoc_imap (fun j => decimal (Z.of_nat j))
                  (fun y => VArr [VStr (path y)]) files i f Hinj Hi).
  - destruct (multipart_spec payload files) as (map_json & _ & ->).
    pose proof (decimal_digits i) as Hdigits.
    rewrite !filter_cons_False.
    + apply (filter_imap_one (fun j => decimal (Z.of_nat j))
               (fun y => Binary (file y) (name (file y))) files i f Hinj Hi).
    + simpl. intros Heq. rewrite <- Heq in Hdigits. by destruct Hdigits.
    + simpl. intros Heq. rewrite <- Heq in Hdigits. by destruct Hdigits.
Qed.

End EncoderFurther.

(** ** Texts read back *)

Section ReadBack.
Import JS Rewriter Text.

Lemma quote_char_read (c : ascii) (rest : string) :
  JSON.parse_chars (JSON.quote_char c +:+ rest)
  = let* (str, rest') := JSON.parse_chars rest in Normal (String c str, rest').
Proof. destruct c as [[] [] [] [] [] [] [] []]; reflexivity. Qed.

Lemma quoted_read (s rest : string) :
  JSON.parse_chars (JSON.quote_chars s +:+ String JSON.DQUOTE rest) = Normal (s, rest).
Proof.
  induction s as [|c s IH]; [reflexivity|].
  change (JSON.quote_chars (String c s))
    with (JSON.quote_char c +:+ JSON.quote_chars s).
  rewrite append_assoc, quote_char_read, IH. reflexivity.
Qed.

Lemma quote_append (s rest : string) :
  JSON.quote s +:+ rest
  = String JSON.DQUOTE (JSON.quote_chars s +:+ String JSON.DQUOTE rest).
Proof. unfold JSON.quote. rewrite !append_cons, append_assoc. reflexivity. Qed.

Lemma string_value_read (fuel : nat) (s rest : string) :
  JSON.parse_value (S fuel) (JSON.quote s +:+ rest) = Normal (VStr s, rest).
Proof. rewrite quote_append. simpl. by rewrite quoted_read. Qed.

Lemma object_read (fuel : nat) (k rest : string) :
  JSON.parse_value (S fuel) (String "{" (JSON.quote k +:+ rest))
  = JSON.parse_members fuel [] (JSON.quote k +:+ rest).
Proof. rewrite quote_append. reflexivity. Qed.

Lemma member_read (fuel : nat) (acc : list (string * value)) (k vtext rest : string)
  (v : value) :
  JSON.parse_value fuel vtext = Normal (v, String "," rest) ->
  JSON.parse_members (S fuel) acc (JSON.quote k +:+ String ":" vtext)
  = JSON.parse_members fuel (define k v acc) rest.
Proof.
  intros Hvalue. rewrite quote_append. simpl. rewrite quoted_read. simpl.
  rewrite Hvalue. reflexivity.
Qed.

Lemma last_member_read (fuel : nat) (acc : list (string * value)) (k vtext rest : string)
  (v : value) :
  JSON.parse_value fuel vtext = Normal (v, String "}" rest) ->
  JSON.parse_members (S fuel) acc (JSON.quote k +:+ String ":" vtext)
  = Normal (VObj (define k v acc), rest).
Proof.
  intros Hvalue. rewrite quote_append. simpl. rewrite quoted_read. simpl.
  rewrite Hvalue. reflexivity.
Qed.

Lemma fuel_for_object (k rest : string) :
  exists fuel,
    (2 * String.length (String "{" (JSON.quote k +:+ rest)) + 2)%nat
    = S (S (S (S (S fuel)))).
Proof.
  rewrite quote_append. cbn [String.length].
  exists (2 * String.length (JSON.quote_chars k +:+ String JSON.DQUOTE rest) + 1)%nat.
  lia.
Qed.

(** The text of a rewritten body whose [operationName] is undefined or a
    string, read back by [JSON.parse]. *)
Lemma rewritten_body_read (operation : value) (q : string) :
  operation = VUndefined \/ (exists name, operation = VStr name) ->
  exists (text : string) (b : value),
    JSON.stringify (VObj [("operationName", operation);
                          ("query", VStr q);
                          ("variables", VNull)]) = Some text /\
    JSON.parse text = Normal b /\
    Get b "query" = Normal (VStr q) /\
    Get b "variables" = Normal VNull.
Proof.
  intros [-> | [name ->]].
  - exists (String "{" (JSON.quote "query" +:+ String ":" (JSON.quote q +:+ String ","
              (JSON.quote "variables" +:+ String ":" "null}")))).
    eexists. split.
    { change (JSON.stringify _)
        with (Some ("{" +:+ ((JSON.quote "query" +:+ ":" +:+ JSON.quote q) +:+ ","
                             +:+ (JSON.quote "variables" +:+ ":" +:+ "null")) +:+ "}")).
      rewrite !append_assoc. reflexivity. }
    unfold JSON.parse.
    destruct (fuel_for_object "query" (String ":" (JSON.quote q +:+ String ","
                (JSON.quote "variables" +:+ String ":" "null}")))) as [fuel ->].
    rewrite object_read.
    rewrite (member_read _ _ _ _ _ _ (string_value_read _ q _)).
    rewrite (last_member_read _ _ _ _ "" VNull) by reflexivity.
    simpl. repeat split.
  - exists (String "{" (JSON.quote "operationName" +:+ String ":" (JSON.quote name
              +:+ String "," (JSON.quote "query" +:+ String ":" (JSON.quote q +:+ String ","
              (JSON.quote "variables" +:+ String ":" "null}")))))).
    eexists. split.
    { change (JSON.stringify _)
        with (Some ("{" +:+ ((JSON.quote "operationName" +:+ ":" +:+ JSON.quote name)
                             +:+ "," +:+ (JSON.quote "query" +:+ ":" +:+ JSON.quote q)
                             +:+ "," +:+ (JSON.quote "variables" +:+ ":" +:+ "null"))
                    +:+ "}")).
      rewrite !append_assoc. reflexivity. }
    unfold JSON.parse.
    destruct (fuel_for_object "operationName" (String ":" (JSON.quote name
                +:+ String "," (JSON.quote "query" +:+ String ":" (JSON.quote q
                +:+ String "," (JSON.quote "variables" +:+ String ":" "null}"))))))
      as [fuel ->].
    rewrite object_read.
    rewrite (member_read _ _ _ _ _ _ (string_value_read _ name _)).
    rewrite (member_read _ _ _ _ _ _ (string_value_read _ q _)).
    rewrite (last_member_read _ _ _ _ "" VNull) by reflexivity.
    simpl. repeat split.
Qed.

End ReadBack.

(** ** Subscribing again *)

Section SubscribingAgain.
Import JS Rewriter Link Text.
Context {Operation Body Response : Type}.
Context `{Collaborators Operation Body Response}.

Local Abbreviation World := (@World Response).
Local Abbreviation Observer := (@Observer Response).
Local Abbreviation Observable := (@Observable Operation).

Lemma rewriteQuery_inversion (body out : value) :
  rewriteQuery body = Normal out ->
  exists (operation : value) (inner : string),
    Get body "operation" = Normal operation /\
    out = VObj [("operationName", operation);
                ("query", VStr (" query { " +:+ inner +:+ " } "));
                ("variables", VNull)].
Proof.
  unfold rewriteQuery. intros Hout.
  destruct (Get body "query") as [query| |]; simpl in Hout; try discriminate.
  destruct query; try discriminate.
  destruct (Get body "variables") as [variables| |]; simpl in Hout; try discriminate.
  destruct (Object_keys variables) as [keys| |]; simpl in Hout; try discriminate.
  destruct (substitute variables keys _) as [q| |]; simpl in Hout; try discriminate.
  destruct (Get body "operation") as [operation| |]; simpl in Hout; try discriminate.
  injection Hout as <-. eauto.
Qed.

(** X14: a subscription that rewrote the query leaves the rewritten text in
    the [options] the Observable closes over, so every later subscription to
    the same Observable parses a body whose [variables] is null: it throws a
    TypeError and does not call [linkFetch].  (Stated for a body whose
    [operation] is undefined, as the link builds it, or a string.) *)
Theorem second_subscription_throws (link : LinkOptions Response) (o : Observable)
  (observer : Observer) (w : World) (b query out : value) :
  JSON.parse (body_text (body (request_options w))) = Normal b ->
  Get b "query" = Normal query ->
  ToBoolean query = true ->
  rewriteQuery b = Normal out ->
  Get b "operation" = Normal VUndefined \/
    (exists name, Get b "operation" = Normal (VStr name)) ->
  exists (reply : Settled Response) (w1 : World),
    subscriber link o w = (Normal reply, w1) /\
    forall w2 : World,
      body (request_options w2) = body (request_options w1) ->
      exists w3 : World,
        subscribe link o observer w2 = (Throw TypeError, w3) /\
        trace w3 = trace w2 ++ [RewriteQuery].
Proof.
  intros Hparse Hquery Htruthy Hout Hoperation.
  rewrite (subscriber_rewrites _ _ _ b query out Hparse Hquery Htruthy Hout).
  eexists _, _. split; [reflexivity|]. intros w2 Hbody. cbn [request_options] in Hbody.
  destruct (rewriteQuery_inversion _ _ Hout) as (operation & inner & Hget & ->).
  destruct (rewritten_body_read operation (" query { " +:+ inner +:+ " } "))
    as (text & b' & Htext & Hread & Hquery' & Hvariables').
  { destruct Hoperation as [Hu | [name Hn]]; rewrite Hget in *.
    - left. congruence.
    - right. exists name. congruence. }
  rewrite Htext in Hbody. simpl in Hbody.
  unfold subscribe, seq.
  destruct (subscriber_body link o w2) as (w0 & _ & _ & _ & ->).
  rewrite Hbody. cbn [body_text]. rewrite Hread, Hquery'.
  change (ToBoolean (VStr (" query { " +:+ inner +:+ " } "))) with true. cbv iota.
  rewrite (rewriteQuery_nullish b' _ VNull Hquery' eq_refl Hvariables' (or_intror eq_refl)).
  eexists. split; reflexivity.
Qed.

End SubscribingAgain.

(** ** The further properties on concrete operations *)

Section FurtherRuns.
Import JS Rewriter Link Text Scenario Cases.

Lemma selection_set_between_braces_witness :
  occurs "{" "mutation Add " = false /\
  occurs "}" "" = false /\
  selection_set ("mutation Add " +:+ "{" +:+ " add(n: 1) { total } " +:+ "}" +:+ "")
  = " add(n: 1) { total } ".
Proof.
  split; [reflexivity|]. split; [reflexivity|].
  apply (selection_set_between_braces "mutation Add " " add(n: 1) { total } " "");
    reflexivity.
Defined.

Lemma selection_set_unbalanced_witness :
  occurs "{" "query Me" = false /\ selection_set "query Me" = "".
Proof.
  split; [reflexivity|].
  apply (selection_set_unbalanced "query Me"). left. reflexivity.
Defined.

Lemma rewritten_query_frame_witness :
  rewriteQuery user_by_id = Normal rewritten_user /\
  exists inner : string,
    Get rewritten_user "query" = Normal (VStr (" query { " +:+ inner +:+ " } ")) /\
    occurs LF inner = false.
Proof.
  split; [reflexivity|].
  apply (rewritten_query_frame user_by_id). reflexivity.
Defined.

Lemma placeholder_replaced_witness :
  Get (VObj [("id", VNum 5)]) "id" = Normal (VNum 5) /\
  word "id" = true /\
  ToString (VNum 5) = Normal "5" /\
  occurs "$" "5" = false /\
  occurs "$" " user(id: " = false /\
  same_ignoring_case "id" "ID" = true /\
  substitute_key (VObj [("id", VNum 5)])
    (" user(id: " +:+ "$" +:+ "ID" +:+ "Extra) { name } ") "id"
  = Normal (" user(id: " +:+ "5" +:+ "Extra) { name } ").
Proof.
  repeat (split; [reflexivity|]).
  apply (placeholder_replaced (VObj [("id", VNum 5)]) (VNum 5) "id" "ID" "5"
           " user(id: " "Extra) { name } "); reflexivity.
Defined.

Lemma unused_variables_dropped_witness :
  substitutable (VObj [("id", VNum 5)]) ["id"] /\
  occurs "$" (selection_set "query Me($id: ID) { me { id } }") = false /\
  rewriteQuery declared
  = Normal (VObj [("operationName", VUndefined);
                  ("query", VStr (" query { "
                                  +:+ remove_newlines
                                        (selection_set "query Me($id: ID) { me { id } }")
                                  +:+ " } "));
                  ("variables", VNull)]).
Proof.
  assert (Hkeys : substitutable (VObj [("id", VNum 5)]) ["id"]).
  { constructor; [|constructor]. split; [reflexivity|].
    exists (VNum 5), "5". split; reflexivity. }
  split; [exact Hkeys|]. split; [reflexivity|].
  apply (unused_variables_dropped declared (VObj [("id", VNum 5)]) VUndefined
           "query Me($id: ID) { me { id } }" ["id"]);
    [reflexivity | reflexivity | reflexivity | reflexivity | exact Hkeys | reflexivity].
Defined.

Lemma operation_name_lost_witness :
  rewriteQuery user_by_id = Normal rewritten_user /\
  Get user_by_id "operation" = Normal VUndefined /\
  exists q : string,
    Get rewritten_user "query" = Normal (VStr q) /\
    JSON.stringify rewritten_user
    = Some ("{" +:+ ((JSON.quote "query" +:+ ":" +:+ JSON.quote q) +:+ ","
                     +:+ (JSON.quote "variables" +:+ ":" +:+ "null")) +:+ "}").
Proof.
  split; [reflexivity|]. split; [reflexivity|].
  apply (operation_name_lost user_by_id); reflexivity.
Defined.

Lemma plain_request_body_witness :
  attachments (plain persisted) = [] /\
  exists (o : Observable) (w' : World),
    @request _ _ _ env link (plain persisted) start = (Normal o, w') /\
    uri o = "/graphql" /\
    request_options w' =
      {| headers := headers defaults;
         body := Some (TextBody (default "" (JSON.stringify persisted)));
         signal := signal defaults; others := others defaults |} /\
    context w' = context start /\
    trace w' = trace start ++ [ExtractFiles; SerializePayload].
Proof.
  split; [reflexivity|].
  apply (@plain_request_body _ _ _ env link (plain persisted) start defaults
           (plain persisted) (plain persisted)); reflexivity.
Defined.

Lemma unserializable_payload_witness :
  @serializeFetchParameter _ _ _ circular (plain persisted) "Payload" = None /\
  exists w' : World,
    @request _ _ _ circular link (plain persisted) start = (Throw Foreign, w') /\
    request_options w' = request_options start /\
    context w' = context start /\
    trace w' = trace start ++ [ExtractFiles; SerializePayload].
Proof.
  split; [reflexivity|].
  apply (@unserializable_payload _ _ _ circular link (plain persisted) start defaults
           (plain persisted) (plain persisted) []); reflexivity.
Defined.

Lemma payload_sent_unchanged_witness :
  JSON.parse (default "" (JSON.stringify persisted)) = Normal persisted /\
  Get persisted "query" = Normal VUndefined /\
  exists w' : World,
    @send _ _ _ env link (plain persisted) start = (Normal ok, w') /\
    trace w' = trace start
               ++ [ExtractFiles; SerializePayload; Fetch "/graphql" sent_persisted] /\
    context w' = context start.
Proof.
  split; [vm_compute; reflexivity|]. split; [reflexivity|].
  apply (@payload_sent_unchanged _ _ _ env link (plain persisted) start defaults
           (plain persisted) (plain persisted) (default "" (JSON.stringify persisted))
           persisted VUndefined);
    first [reflexivity | vm_compute; reflexivity].
Defined.

Lemma rewritten_body_sent_witness :
  JSON.parse (default "" (JSON.stringify user_by_id)) = Normal user_by_id /\
  rewriteQuery user_by_id = Normal rewritten_user /\
  exists w' : World,
    @send _ _ _ env link (plain user_by_id) start = (Normal ok, w') /\
    trace w' = trace start
               ++ [ExtractFiles; SerializePayload; RewriteQuery;
                   Fetch "/graphql" sent_user] /\
    request_options w' = sent_user.
Proof.
  split; [vm_compute; reflexivity|]. split; [reflexivity|].
  apply (@rewritten_body_sent _ _ _ env link (plain user_by_id) start defaults
           (plain user_by_id) (plain user_by_id) (default "" (JSON.stringify user_by_id))
           user_by_id (VStr "{ user(id: $id) { name } }") rewritten_user);
    first [reflexivity | vm_compute; reflexivity].
Defined.

Lemma response_kept_on_failure_witness :
  @failure _ _ _ env user_query (Fulfilled refused) = Some server_error /\
  exists w1 : World,
    @settle _ _ _ env user_query silent (Fulfilled refused) start
    = on_rejected silent server_error w1 /\
    context w1 = <["response" := Raw refused]> (context start).
Proof.
  split; [reflexivity|].
  apply (@response_kept_on_failure _ _ _ env user_query silent (Fulfilled refused)
           server_error start). reflexivity.
Defined.

Lemma map_and_parts_agree_witness :
  attachments upload !! 0%nat = Some {| path := "variables.file"; file := photo |} /\
  Get (file_map (attachments upload)) (decimal 0) = Normal (VArr [VStr "variables.file"]) /\
  filter (fun entry : string * Part => entry.1 = decimal 0)
         (multipart "{}" (attachments upload) : list (string * Part))
  = [(decimal 0, Binary photo (Some "a.jpg"))].
Proof.
  split; [reflexivity|].
  apply (map_and_parts_agree "{}" (attachments upload) 0
           {| path := "variables.file"; file := photo |}). reflexivity.
Defined.

Lemma second_subscription_throws_witness :
  JSON.parse (body_text (body (request_options requested_user))) = Normal user_by_id /\
  rewriteQuery user_by_id = Normal rewritten_user /\
  Get user_by_id "operation" = Normal VUndefined /\
  exists (reply : Settled Response) (w1 : World),
    @subscriber _ _ _ env link user_query requested_user = (Normal reply, w1) /\
    forall w2 : World,
      body (request_options w2) = body (request_options w1) ->
      exists w3 : World,
        @subscribe _ _ _ env link user_query silent w2 = (Throw TypeError, w3) /\
        trace w3 = trace w2 ++ [RewriteQuery].
Proof.
  split; [vm_compute; reflexivity|]. split; [reflexivity|]. split; [reflexivity|].
  apply (@second_subscription_throws _ _ _ env link user_query silent requested_user
           user_by_id (VStr "{ user(id: $id) { name } }") rewritten_user);
    first [reflexivity | vm_compute; reflexivity | left; reflexivity].
Defined.

End FurtherRuns.
